(** * Session identity, history loading and question dispatch of the PDF chat page

    A shallow embedding of the chat page component (the [Chat] component of
    [src/unnamed/part_001], and the variant of the same page in
    [src/src/pages/Chat.tsx]) together with the properties of its
    session-key resolution, optimistic message log, history loading,
    document loading and question dispatch.

    Conventions.
    - A JavaScript string is the list of its UTF-16 code units.
    - React state is an explicit record; a functional update
      [setMessages((m) => [...m, x])] appends to the current log.
    - An asynchronous function is a finite tree of suspension points
      ([task]); the environment decides when, and with which result, a
      suspended call resumes.
    - A closure variable of an effect ([isMounted], [currentUrl]) is a cell
      of the effect instance that owns it. *)

From Stdlib Require Import ZArith NArith List Bool Ascii String DecimalString Lia.
From Stdlib Require DecimalZ.
From stdpp Require Import base list.
Import ListNotations.

Local Open Scope Z_scope.

(** ** JavaScript strings *)

Module Js.

(** A string value: UTF-16 code units. *)
Definition jsstring : Type := list N.

(** A string literal of the source (ASCII only). *)
Definition lit (s : string) : jsstring :=
  map N_of_ascii (list_ascii_of_string s).

(** [ToBoolean] on strings: only the empty string is falsy. *)
Definition truthy (s : jsstring) : bool :=
  match s with [] => false | _ :: _ => true end.

(** [ToBoolean] on [string | undefined]. *)
Definition truthy_opt (o : option jsstring) : bool :=
  match o with None => false | Some s => truthy s end.

(** [a || b] on strings. *)
Definition or_else (a b : jsstring) : jsstring :=
  if truthy a then a else b.

(** [a || b] where [a] may be [undefined] / [null]. *)
Definition opt_or_else (a : option jsstring) (b : jsstring) : jsstring :=
  match a with Some s => or_else s b | None => b end.

(** [String.prototype.startsWith]. *)
Fixpoint startsWith (s p : jsstring) : bool :=
  match p, s with
  | [], _ => true
  | _ :: _, [] => false
  | c :: p', d :: s' => N.eqb c d && startsWith s' p'
  end.

(** [s === t] on strings. *)
Fixpoint eqb (s t : jsstring) : bool :=
  match s, t with
  | [], [] => true
  | c :: s', d :: t' => N.eqb c d && eqb s' t'
  | _, _ => false
  end.

(** ECMAScript [WhiteSpace] and [LineTerminator] code units, the ones
    [String.prototype.trim] strips: TAB, LF, VT, FF, CR, SP, NBSP,
    U+1680, U+2000..U+200A, LS, PS, U+202F, U+205F, U+3000, BOM. *)
Definition isWhiteSpace (c : N) : bool :=
  ((9 <=? c) && (c <=? 13) || (c =? 32) || (c =? 160) || (c =? 5760)
   || (8192 <=? c) && (c <=? 8202) || (c =? 8232) || (c =? 8233)
   || (c =? 8239) || (c =? 8287) || (c =? 12288) || (c =? 65279))%N.

Fixpoint trimStart (s : jsstring) : jsstring :=
  match s with
  | [] => []
  | c :: s' => if isWhiteSpace c then trimStart s' else s
  end.

Definition trimEnd (s : jsstring) : jsstring :=
  rev (trimStart (rev s)).

(** [String.prototype.trim]. *)
Definition trim (s : jsstring) : jsstring := trimEnd (trimStart s).

(** [Number.prototype.toString] on an integer (the clock readings and
    the small offsets added to them are far below 2^53, where the
    arithmetic of JavaScript numbers is exact). *)
Definition toString (n : Z) : jsstring :=
  lit (NilEmpty.string_of_int (Z.to_int n)).

(** A template literal with two parts. *)
Definition concat (a b : jsstring) : jsstring := a ++ b.

End Js.

Import Js.

(** ** Session-key resolution ([part_001], lines 110-118) *)

Module Resolver.

(** [const pdfId = new URLSearchParams(location.search).get("pdf") || ""]:
    [query] is what [get("pdf")] returns, [None] for [null]. *)
Definition pdfIdOf (query : option jsstring) : jsstring :=
  opt_or_else query (lit "").

(** The immediately-invoked arrow function that computes
    [effectiveChatId]; [None] is [undefined]. *)
Definition effectiveChatId (paramChatId : option jsstring) (pdfId : jsstring)
  : option jsstring :=
  match paramChatId with
  | Some p =>
      if truthy p && startsWith p (lit "chat_") then Some p
      else if truthy pdfId then Some (concat (lit "chat_") pdfId)
      else None
  | None =>
      if truthy pdfId then Some (concat (lit "chat_") pdfId) else None
  end.

Record resolved := Resolved {
  sessionKey : option jsstring;
  documentKey : jsstring
}.

(** The two identifiers a render of the component works with. *)
Definition resolve (routeParam queryParam : option jsstring) : resolved :=
  let pdfId := pdfIdOf queryParam in
  Resolved (effectiveChatId routeParam pdfId) pdfId.

(** The resolution order as the specification words it.  A document key
    is available when the query input is present and not the empty
    string. *)
Definition documentKeyAvailable (queryParam : option jsstring)
  : option jsstring :=
  match queryParam with
  | Some (c :: d) => Some (c :: d)
  | _ => None
  end.

Definition resolve_reference (routeParam queryParam : option jsstring)
  : option jsstring :=
  match routeParam with
  | Some r =>
      if startsWith r (lit "chat_") then Some r
      else match documentKeyAvailable queryParam with
           | Some d => Some (lit "chat_" ++ d)
           | None => None
           end
  | None =>
      match documentKeyAvailable queryParam with
      | Some d => Some (lit "chat_" ++ d)
      | None => None
      end
  end.

(** The session key built from the document key alone. *)
Definition derivedKey (q : option jsstring) : option jsstring :=
  if truthy (pdfIdOf q) then Some (lit "chat_" ++ pdfIdOf q) else None.

End Resolver.

(** ** Messages, notifications and backend results *)

Inductive Role := user | assistant.

(** [interface Message] of both variants of the page. *)
Record Message := mkMessage {
  id : jsstring;
  role : Role;
  content : jsstring;
  timestamp : jsstring
}.

(** The argument of [toast(...)]; [destructive] is
    [variant: "destructive"]. *)
Record Toast := mkToast {
  title : jsstring;
  description : jsstring;
  destructive : bool
}.

(** A caught exception, as far as the page looks at it: [err?.message]
    and [String(err)]. *)
Record JsError := mkError {
  message : option jsstring;
  asString : jsstring
}.

(** The JSON body of [POST /ask_question/]: [res.answer]. *)
Record AskResponse := mkAnswer { answer : option jsstring }.

(** What [await askQuestion(chat_id, question)] does inside its [try]:
    it throws ([inl]) or evaluates to the parsed body ([inr]). *)
Definition AskResult : Type := JsError + AskResponse.

(** The two variants of the page: [part_001] resolves a session key from
    the route parameter and the [?pdf=] query; [src/pages/Chat.tsx] uses
    the route parameter as the only identifier. *)
Inductive Variant := SessionChat | PagesChat.

(** ** Sending a question ([handleSend]) *)

Module Send.

(** Effects visible outside the component, oldest first. *)
Inductive Event :=
| EvAsk (chat_id question : jsstring)   (* POST /ask_question/ issued *)
| EvToast (t : Toast)
| EvNavigate (to : jsstring).            (* navigate(to, {replace: true}) *)

(** The body of an [async] function: straight-line effects between
    suspension points.  [Now] is [Date.now()], [AwaitImport] is
    [await import("@/lib/api")], which only yields (the module is loaded
    with the page, which imports it statically), and [AwaitAsk] is
    [await askQuestion(...)]. *)
Inductive task :=
| Return
| Now (k : Z -> task)
| AppendMessage (m : Message) (k : task)
| ShowToast (t : Toast) (k : task)
| Navigate (chatId pdf : jsstring) (k : task)
| AwaitImport (k : task)
| AwaitAsk (chat_id question : jsstring) (k : AskResult -> task).

(** Where a started task waits. *)
Inductive suspended :=
| OnImport (k : task)
| OnAsk (chat_id question : jsstring) (k : AskResult -> task).

(** The component: router inputs, the two pieces of React state that
    [handleSend] touches, the outward effects so far, and the started
    dispatches (a finished one leaves [None] in its slot). *)
Record World := mkWorld {
  routeParam : option jsstring;
  queryPdf : option jsstring;
  input : jsstring;
  messages : list Message;
  log : list Event;
  pending : list (option suspended)
}.

Definition setInput (s : jsstring) (w : World) : World :=
  mkWorld (routeParam w) (queryPdf w) s (messages w) (log w) (pending w).

(** [setMessages((m) => [...m, x])]. *)
Definition appendMessage (x : Message) (w : World) : World :=
  mkWorld (routeParam w) (queryPdf w) (input w) (messages w ++ [x]) (log w)
    (pending w).

Definition emit (e : Event) (w : World) : World :=
  mkWorld (routeParam w) (queryPdf w) (input w) (messages w) (log w ++ [e])
    (pending w).

Definition setPending (p : list (option suspended)) (w : World) : World :=
  mkWorld (routeParam w) (queryPdf w) (input w) (messages w) (log w) p.

(** [`/chat/${chatId}?pdf=${pdf}`]. *)
Definition chatPath (chatId pdf : jsstring) : jsstring :=
  lit "/chat/" ++ chatId ++ lit "?pdf=" ++ pdf.

(** [navigate(`/chat/${chatId}?pdf=${pdf}`, { replace: true })]: the
    path, built without any encoding, is handed to the router.  What
    the router reads back from it for the renders that follow (the
    route parameter and the [?pdf=] value) is the router's doing and is
    not part of this step: [routeParam] and [queryPdf] stay the inputs
    of the render whose handlers are running. *)
Definition navigateTo (chatId pdf : jsstring) (w : World) : World :=
  mkWorld (routeParam w) (queryPdf w) (input w) (messages w)
    (log w ++ [EvNavigate (chatPath chatId pdf)]) (pending w).

(** Runs a task up to its next suspension point; [now] is what
    [Date.now()] reads during this turn of the event loop. *)
Fixpoint advance (now : Z) (t : task) (w : World) : World * option suspended :=
  match t with
  | Return => (w, None)
  | Now k => advance now (k now) w
  | AppendMessage m k => advance now k (appendMessage m w)
  | ShowToast t k => advance now k (emit (EvToast t) w)
  | Navigate c p k => advance now k (navigateTo c p w)
  | AwaitImport k => (w, Some (OnImport k))
  | AwaitAsk c q k => (emit (EvAsk c q) w, Some (OnAsk c q k))
  end.

(** Runs a task to its end with nothing else interleaved: [backend]
    decides every request, [clock n] is the clock reading in the turn
    after the [n]-th suspension. *)
Fixpoint run (backend : jsstring -> jsstring -> AskResult) (clock : nat -> Z)
    (n : nat) (t : task) (w : World) : World :=
  match t with
  | Return => w
  | Now k => run backend clock n (k (clock n)) w
  | AppendMessage m k => run backend clock n k (appendMessage m w)
  | ShowToast t k => run backend clock n k (emit (EvToast t) w)
  | Navigate c p k => run backend clock n k (navigateTo c p w)
  | AwaitImport k => run backend clock (S n) k w
  | AwaitAsk c q k =>
      run backend clock (S n) (k (backend c q)) (emit (EvAsk c q) w)
  end.

(** *** The messages [handleSend] builds *)

Definition justNow : jsstring := lit "Just now".

Definition userMessage (now : Z) (text : jsstring) : Message :=
  mkMessage (toString now) user text justNow.

(** [content: res.answer || "(no answer)"], id [Date.now() + off]. *)
Definition aiResp (now off : Z) (res : AskResponse) : Message :=
  mkMessage (toString (now + off)) assistant
    (opt_or_else (answer res) (lit "(no answer)")) justNow.

Definition failedText : jsstring := lit "Failed to get answer from server.".

Definition failedResp (now off : Z) : Message :=
  mkMessage (toString (now + off)) assistant failedText justNow.

Definition missingChatId : Toast :=
  mkToast (lit "Missing chat id")
    (lit "Cannot send question because chat id is missing.") true.

(** [description: err?.message || "Failed to get answer from server"]. *)
Definition serverError (err : JsError) : Toast :=
  mkToast (lit "Server error")
    (opt_or_else (message err) (lit "Failed to get answer from server")) true.

(** [const fallbackChat = pdfId ? `chat_${pdfId}` : undefined]. *)
Definition fallbackChat (pdfId : jsstring) : option jsstring :=
  if truthy pdfId then Some (concat (lit "chat_") pdfId) else None.

(** [fallbackChat !== effectiveChatId]. *)
Definition strictNeq (a b : option jsstring) : bool :=
  match a, b with
  | Some x, Some y => negb (eqb x y)
  | None, None => false
  | _, _ => true
  end.

(** *** The asynchronous part of [handleSend], [part_001] lines 311-408.
    [effectiveChatId] and [pdfId] are the values of the render whose
    [handleSend] was called.  The outer [catch] is not reached: nothing
    in the outer [try] throws outside the two inner [try] blocks. *)
Definition askFlow (effectiveChatId : option jsstring) (pdfId : jsstring)
    (userMessage : Message) : task :=
  AwaitImport
    (match effectiveChatId with
     | Some chat =>
         if truthy chat then
           (* Primary attempt *)
           AwaitAsk chat (content userMessage) (fun r =>
             match r with
             | inr res =>
                 Now (fun t => AppendMessage (aiResp t 1 res) Return)
             | inl err =>
                 let fb := fallbackChat pdfId in
                 match fb with
                 | Some fbChat =>
                     if truthy fbChat && strictNeq fb effectiveChatId then
                       AwaitImport
                         (AwaitAsk fbChat (content userMessage) (fun r2 =>
                            match r2 with
                            | inr res2 =>
                                Now (fun t =>
                                  AppendMessage (aiResp t 2 res2)
                                    (Navigate fbChat pdfId Return))
                            | inl err2 =>
                                ShowToast (serverError err2)
                                  (Now (fun t =>
                                     AppendMessage (failedResp t 3) Return))
                            end))
                     else
                       ShowToast (serverError err)
                         (Now (fun t => AppendMessage (failedResp t 4) Return))
                 | None =>
                     ShowToast (serverError err)
                       (Now (fun t => AppendMessage (failedResp t 4) Return))
                 end
             end)
         else ShowToast missingChatId Return
     | None => ShowToast missingChatId Return
     end).

(** The asynchronous part of [handleSend] in [src/pages/Chat.tsx], lines
    182-204: [const chatId = pdfId || `chat_${Date.now()}`], one
    attempt, and a placeholder on any failure. *)
Definition askFlowPages (pdfId : jsstring) (userMessage : Message) : task :=
  AwaitImport
    (Now (fun t0 =>
       AwaitAsk (or_else pdfId (concat (lit "chat_") (toString t0)))
         (content userMessage) (fun r =>
           match r with
           | inr res => Now (fun t => AppendMessage (aiResp t 1 res) Return)
           | inl _ => Now (fun t => AppendMessage (failedResp t 1) Return)
           end))).

(** [useParams<{ pdfId: string }>().pdfId ?? "e6401bc3-..."]. *)
Definition pagesPdfId (routeParam : option jsstring) : jsstring :=
  match routeParam with
  | Some p => p
  | None => lit "e6401bc3-497a-40e8-96be-d28722913b99"
  end.

(** The dispatch a render's [handleSend] starts for [userMessage]. *)
Definition flowOf (v : Variant) (w : World) (userMessage : Message) : task :=
  match v with
  | SessionChat =>
      let pdfId := Resolver.pdfIdOf (queryPdf w) in
      askFlow (Resolver.effectiveChatId (routeParam w) pdfId) pdfId userMessage
  | PagesChat => askFlowPages (pagesPdfId (routeParam w)) userMessage
  end.

(** [handleSend], called while [Date.now()] reads [now]: the guard, the
    optimistic append, the reset of the input field, and the start of
    the dispatch, which runs up to its first [await]. *)
Definition handleSend (v : Variant) (now : Z) (w : World) : World :=
  if negb (truthy (trim (input w))) then w
  else
    let um := userMessage now (input w) in
    let w1 := setInput (lit "") (appendMessage um w) in
    let '(w2, s) := advance now (flowOf v w um) w1 in
    setPending (pending w2 ++ [s]) w2.

(** A suspended dispatch resumes: the import has yielded, or the request
    of slot [i] has completed with [r]. *)
Definition resume (i : nat) (now : Z) (r : AskResult) (w : World) : World :=
  match pending w !! i with
  | Some (Some (OnImport k)) =>
      let '(w', s) := advance now k w in
      setPending (<[i := s]> (pending w')) w'
  | Some (Some (OnAsk _ _ k)) =>
      let '(w', s) := advance now (k r) w in
      setPending (<[i := s]> (pending w')) w'
  | _ => w
  end.

(** What can happen to the page, one turn of the event loop each. *)
Inductive Action :=
| TypeInput (s : jsstring)                (* onChange: setInput(value) *)
| ClickSend (now : Z)                     (* onClick / Enter: handleSend() *)
| Resume (i : nat) (now : Z) (r : AskResult).

Definition step (v : Variant) (a : Action) (w : World) : World :=
  match a with
  | TypeInput s => setInput s w
  | ClickSend now => handleSend v now w
  | Resume i now r => resume i now r w
  end.

Definition steps (v : Variant) (acts : list Action) (w : World) : World :=
  fold_left (fun w a => step v a w) acts w.

(** A freshly mounted page. *)
Definition mount (routeParam queryPdf : option jsstring) : World :=
  mkWorld routeParam queryPdf (lit "") [] [] [].

(** The dispatch of one question, run to its end. *)
Definition dispatch (backend : jsstring -> jsstring -> AskResult)
    (clock : nat -> Z) (n : nat) (effectiveChatId : option jsstring)
    (pdfId : jsstring) (um : Message) (w : World) : World :=
  run backend clock n (askFlow effectiveChatId pdfId um) w.

(** The dispatch in slot [i] taken through the event loop: each turn
    resumes it with what the backend answers to the request it waits
    for, until it has ended or [fuel] turns have passed. *)
Fixpoint drive (backend : jsstring -> jsstring -> AskResult) (clock : nat -> Z)
    (n fuel i : nat) (w : World) : World :=
  match fuel with
  | O => w
  | S fuel' =>
      match pending w !! i with
      | Some (Some (OnImport _)) =>
          drive backend clock (S n) fuel' i
            (resume i (clock (S n)) (inl (mkError None (lit ""))) w)
      | Some (Some (OnAsk c q _)) =>
          drive backend clock (S n) fuel' i
            (resume i (clock (S n)) (backend c q) w)
      | _ => w
      end
  end.

(** What the user and the outside see of the page: everything but the
    bookkeeping of started dispatches. *)
Definition visible (w : World)
  : option jsstring * option jsstring * jsstring * list Message * list Event :=
  (routeParam w, queryPdf w, input w, messages w, log w).

(** The requests among some effects. *)
Definition asks (l : list Event) : list (jsstring * jsstring) :=
  flat_map (fun e => match e with EvAsk c q => [(c, q)] | _ => [] end) l.

Definition navigations (l : list Event) : list jsstring :=
  flat_map (fun e => match e with EvNavigate p => [p] | _ => [] end) l.

Definition toasts (l : list Event) : list Toast :=
  flat_map (fun e => match e with EvToast t => [t] | _ => [] end) l.

End Send.

(** ** Loading the chat history (the first [useEffect]) *)

Module History.

(** One element of [data.interactions]. *)
Record ChatInteraction := mkInteraction {
  question : jsstring;
  answer : jsstring;
  asked_at : jsstring
}.

(** What [await getChatHistory(key)] and the loop over
    [data.interactions] do inside the [try]: throw, or see this array. *)
Definition FetchResult : Type := JsError + list ChatInteraction.

(** One run of the effect: the dependency it ran for, its closure
    variable [isMounted], and whether its request is still unanswered. *)
Record Load := mkLoad {
  key : option jsstring;
  isMounted : bool;
  inFlight : bool
}.

(** The state the effect writes, the run whose cleanup React holds
    ([current]), and every run so far in creation order. *)
Record State := mkState {
  messages : list Message;
  isLoadingHistory : bool;
  historyError : jsstring;
  current : option nat;
  loads : list Load
}.

Definition init : State := mkState [] false (lit "") None [].

(** [historyMessages], filled by [forEach((it, idx) => ...)]. *)
Fixpoint historyMessages (idx : Z) (its : list ChatInteraction)
  : list Message :=
  match its with
  | [] => []
  | it :: rest =>
      mkMessage (toString idx ++ lit "-q") user (question it) (asked_at it)
      :: mkMessage (toString idx ++ lit "-a") assistant (answer it)
           (asked_at it)
      :: historyMessages (idx + 1) rest
  end.

Definition welcome (text : jsstring) : Message :=
  mkMessage (lit "welcome") assistant text (lit "Just now").

Definition noSessionText : jsstring :=
  lit "Hello! Upload a PDF or open a chat to start. Once you open a chat, ask me anything about the document.".

Definition emptyHistoryText : jsstring :=
  lit "No previous interactions found. Ask a question to get started!".

Definition failureText (v : Variant) : jsstring :=
  match v with
  | SessionChat =>
      lit "Hello! I'm ready to help you understand this PDF. Ask me any questions!"
  | PagesChat =>
      lit "Hello! I'm ready to help you understand this PDF. Ask me any questions about the content, and I'll provide detailed explanations."
  end.

(** The argument of [setMessages] on success:
    [historyMessages.length ? historyMessages : [welcome]] in
    [part_001], [historyMessages] in [src/pages/Chat.tsx]. *)
Definition loaded (v : Variant) (its : list ChatInteraction) : list Message :=
  let h := historyMessages 0 its in
  match v with
  | SessionChat =>
      match h with [] => [welcome emptyHistoryText] | _ :: _ => h end
  | PagesChat => h
  end.

Definition setLoad (i : nat) (l : Load) (s : State) : State :=
  mkState (messages s) (isLoadingHistory s) (historyError s) (current s)
    (<[i := l]> (loads s)).

(** The cleanup function of run [i]: [isMounted = false]. *)
Definition cleanup (i : nat) (s : State) : State :=
  match loads s !! i with
  | Some l => setLoad i (mkLoad (key l) false (inFlight l)) s
  | None => s
  end.

(** The effect body up to its [await], for the dependency [k]. *)
Definition runEffect (v : Variant) (k : option jsstring) (s : State) : State :=
  let n := length (loads s) in
  if truthy_opt k then
    (* setIsLoadingHistory(true); setHistoryError(""); request issued *)
    mkState (messages s) true (lit "") (Some n)
      (loads s ++ [mkLoad k true true])
  else
    match v with
    | SessionChat =>
        mkState [welcome noSessionText] (isLoadingHistory s) (historyError s)
          (Some n) (loads s ++ [mkLoad k true false])
    | PagesChat =>
        mkState (messages s) (isLoadingHistory s) (historyError s)
          (Some n) (loads s ++ [mkLoad k true false])
    end.

(** A render whose dependency is [k]: React runs the effect on mount,
    and afterwards only when the dependency changed, the cleanup of the
    previous run first.  The commit of a render, with that cleanup and
    the start of the new run, is one turn of the event loop here. *)
Definition render (v : Variant) (k : option jsstring) (s : State) : State :=
  match current s with
  | None => runEffect v k s
  | Some i =>
      match loads s !! i with
      | Some l =>
          if bool_decide (key l = k) then s
          else runEffect v k (cleanup i s)
      | None => runEffect v k s
      end
  end.

(** The component is removed: the cleanup of the last run. *)
Definition unmount (s : State) : State :=
  match current s with
  | Some i =>
      let s' := cleanup i s in
      mkState (messages s') (isLoadingHistory s') (historyError s') None
        (loads s')
  | None => s
  end.

(** The rest of [loadHistory] after the [await], for a run whose
    [isMounted] reads [mounted]. *)
Definition afterAwait (v : Variant) (mounted : bool) (r : FetchResult)
    (s : State) : State :=
  if negb mounted then s   (* if (!isMounted) return; finally: skipped *)
  else
    match r with
    | inr its =>
        mkState (loaded v its) false (historyError s) (current s) (loads s)
    | inl err =>
        mkState [welcome (failureText v)] false
          (opt_or_else (message err) (lit "Failed to load chat history"))
          (current s) (loads s)
    end.

(** The request of run [i] completes with [r] (a promise settles once). *)
Definition settle (v : Variant) (i : nat) (r : FetchResult) (s : State)
  : State :=
  match loads s !! i with
  | Some l =>
      if inFlight l then
        afterAwait v (isMounted l) r
          (setLoad i (mkLoad (key l) (isMounted l) false) s)
      else s
  | None => s
  end.

Inductive Action :=
| Render (k : option jsstring)
| Settle (i : nat) (r : FetchResult)
| Unmount.

Definition step (v : Variant) (a : Action) (s : State) : State :=
  match a with
  | Render k => render v k s
  | Settle i r => settle v i r s
  | Unmount => unmount s
  end.

Definition steps (v : Variant) (acts : list Action) (s : State) : State :=
  fold_left (fun s a => step v a s) acts s.

(** What the user can see of the load. *)
Definition view (s : State) : list Message * bool * jsstring :=
  (messages s, isLoadingHistory s, historyError s).

(** How the runs and the loading flag hang together: only the current
    run can be mounted; the current run is mounted; while it has a key,
    the flag is on exactly as long as its request is unanswered; and a
    run without a key has no request. *)
Definition coherent (s : State) : Prop :=
  (forall j l, loads s !! j = Some l -> isMounted l = true ->
               current s = Some j) /\
  (forall i, current s = Some i ->
     exists l, loads s !! i = Some l /\ isMounted l = true /\
               (truthy_opt (key l) = true ->
                isLoadingHistory s = inFlight l) /\
               (truthy_opt (key l) = false -> inFlight l = false)).

End History.

(** ** Loading the document (the second [useEffect]) *)

Module Pdf.

(** An object URL, numbered in the order [URL.createObjectURL] made
    them; the empty string of [useState<string>("")] is [None]. *)
Definition Url : Type := nat.

(** What [await getPdf(pdfId)] does: throw, or yield the blob. *)
Definition FetchResult : Type := JsError + unit.

(** One run of the effect: its dependency, its closure variables
    ([isMounted]; [currentUrl] in [part_001]; the [pdfUrl] of the render
    that created the run, which is what the cleanup of
    [src/pages/Chat.tsx] reads), and whether its request is unanswered. *)
Record Fetch := mkFetch {
  pdfId : jsstring;
  isMounted : bool;
  currentUrl : option Url;
  closurePdfUrl : option Url;
  inFlight : bool
}.

(** The React state of the document pane, the object URLs that are
    created and not revoked ([live]), the number of URLs created so far,
    the run whose cleanup React holds, every run so far, and the
    notifications shown. *)
Record State := mkState {
  pdfUrl : option Url;
  isLoadingPdf : bool;
  live : list Url;
  created : nat;
  current : option nat;
  fetches : list Fetch;
  toasts : list Toast
}.

Definition init : State := mkState None false [] 0%nat None [] [].

Definition setFetch (i : nat) (f : Fetch) (s : State) : State :=
  mkState (pdfUrl s) (isLoadingPdf s) (live s) (created s) (current s)
    (<[i := f]> (fetches s)) (toasts s).

(** [URL.revokeObjectURL(u)]. *)
Definition revoke (u : Url) (s : State) : State :=
  mkState (pdfUrl s) (isLoadingPdf s)
    (filter (fun x => x <> u) (live s)) (created s) (current s)
    (fetches s) (toasts s).

Definition revokeIf (o : option Url) (s : State) : State :=
  match o with Some u => revoke u s | None => s end.

(** The cleanup function of run [i]:
    [isMounted = false; if (currentUrl) URL.revokeObjectURL(currentUrl)]
    in [part_001],
    [isMounted = false; if (pdfUrl) URL.revokeObjectURL(pdfUrl)]
    in [src/pages/Chat.tsx]. *)
Definition cleanup (v : Variant) (i : nat) (s : State) : State :=
  match fetches s !! i with
  | Some f =>
      let s' :=
        setFetch i
          (mkFetch (pdfId f) false (currentUrl f) (closurePdfUrl f)
             (inFlight f)) s in
      match v with
      | SessionChat => revokeIf (currentUrl f) s'
      | PagesChat => revokeIf (closurePdfUrl f) s'
      end
  | None => s
  end.

(** The effect body up to its [await]. *)
Definition runEffect (p : jsstring) (s : State) : State :=
  let n := length (fetches s) in
  if truthy p then
    (* setIsLoadingPdf(true); request issued *)
    mkState (pdfUrl s) true (live s) (created s) (Some n)
      (fetches s ++ [mkFetch p true None (pdfUrl s) true]) (toasts s)
  else
    mkState (pdfUrl s) (isLoadingPdf s) (live s) (created s) (Some n)
      (fetches s ++ [mkFetch p true None (pdfUrl s) false]) (toasts s).

(** A render with document id [p].  The dependencies are
    [[pdfId, toast]] in [part_001] ([toastChanged] says that [useToast]
    returned a new function) and [[pdfId]] in [src/pages/Chat.tsx]. *)
Definition render (v : Variant) (p : jsstring) (toastChanged : bool)
    (s : State) : State :=
  match current s with
  | None => runEffect p s
  | Some i =>
      match fetches s !! i with
      | Some f =>
          let changed :=
            match v with
            | SessionChat => negb (bool_decide (pdfId f = p)) || toastChanged
            | PagesChat => negb (bool_decide (pdfId f = p))
            end in
          if changed then runEffect p (cleanup v i s) else s
      | None => runEffect p s
      end
  end.

Definition unmount (v : Variant) (s : State) : State :=
  match current s with
  | Some i =>
      let s' := cleanup v i s in
      mkState (pdfUrl s') (isLoadingPdf s') (live s') (created s') None
        (fetches s') (toasts s')
  | None => s
  end.

Definition loadFailed (err : JsError) : Toast :=
  mkToast (lit "PDF load failed")
    (opt_or_else (message err) (asString err)) true.

(** The rest of [loadPdf] after the [await], in run [i] with closure [f]. *)
Definition afterAwait (v : Variant) (i : nat) (f : Fetch) (r : FetchResult)
    (s : State) : State :=
  match r with
  | inr _ =>
      if negb (isMounted f) then s
      else
        (* const url = URL.createObjectURL(blob); setPdfUrl(url) *)
        let url := created s in
        let f' :=
          match v with
          | SessionChat =>
              mkFetch (pdfId f) (isMounted f) (Some url) (closurePdfUrl f)
                (inFlight f)
          | PagesChat => f
          end in
        mkState (Some url) false (live s ++ [url]) (S (created s))
          (current s) (<[i := f']> (fetches s)) (toasts s)
  | inl err =>
      match v with
      | SessionChat =>
          (* the toast is shown whether or not the run is still mounted *)
          mkState (pdfUrl s)
            (if isMounted f then false else isLoadingPdf s)
            (live s) (created s) (current s) (fetches s)
            (toasts s ++ [loadFailed err])
      | PagesChat =>
          if negb (isMounted f) then s
          else
            mkState (pdfUrl s) false (live s) (created s) (current s)
              (fetches s) (toasts s)
      end
  end.

(** The request of run [i] completes with [r]. *)
Definition settle (v : Variant) (i : nat) (r : FetchResult) (s : State)
  : State :=
  match fetches s !! i with
  | Some f =>
      if inFlight f then
        let f0 :=
          mkFetch (pdfId f) (isMounted f) (currentUrl f) (closurePdfUrl f)
            false in
        afterAwait v i f0 r (setFetch i f0 s)
      else s
  | None => s
  end.

Inductive Action :=
| Render (p : jsstring) (toastChanged : bool)
| Settle (i : nat) (r : FetchResult)
| Unmount.

Definition step (v : Variant) (a : Action) (s : State) : State :=
  match a with
  | Render p c => render v p c s
  | Settle i r => settle v i r s
  | Unmount => unmount v s
  end.

Definition steps (v : Variant) (acts : list Action) (s : State) : State :=
  fold_left (fun s a => step v a s) acts s.

(** The object URL the current run holds, if any. *)
Definition held (s : State) : list Url :=
  match current s with
  | Some i =>
      match fetches s !! i with
      | Some f => match currentUrl f with Some u => [u] | None => [] end
      | None => []
      end
  | None => []
  end.

(** How the runs of [part_001] and the registry of object URLs hang
    together: a run that still waits has made no URL, only the current
    run can be mounted, and the live URLs are the one the current run
    holds. *)
Definition consistent (s : State) : Prop :=
  (forall i f, fetches s !! i = Some f -> inFlight f = true ->
               currentUrl f = None) /\
  (forall i f, fetches s !! i = Some f -> isMounted f = true ->
               current s = Some i) /\
  live s = held s.

End Pdf.

(** ** The backend wrappers ([src/lib/api.ts]) *)

Module Api.

(** What [await fetch(...)] does: reject (no connection), or resolve to
    a response with its [ok] flag and what parsing its body
    ([res.json()], [res.blob()]) gives. *)
Inductive Fetched (A : Type) :=
| Rejected (err : JsError)
| Responded (ok : bool) (body : JsError + A).

Arguments Rejected {A} err.
Arguments Responded {A} ok body.

(** [new Error(msg)]. *)
Definition newError (msg : string) : JsError :=
  mkError (Some (lit msg)) (lit "Error: " ++ lit msg).

(** The shape all five wrappers share:
    [const res = await fetch(...); if (!res.ok) throw new Error(msg);
     return res.json();]. *)
Definition unwrap {A : Type} (msg : string) (r : Fetched A) : JsError + A :=
  match r with
  | Rejected err => inl err
  | Responded ok body => if negb ok then inl (newError msg) else body
  end.

Definition askQuestion (r : Fetched AskResponse) : AskResult :=
  unwrap "Ask failed" r.

(** The body is read as far as [loadHistory] reads it:
    [data.interactions]. *)
Definition getChatHistory (r : Fetched (list History.ChatInteraction))
  : History.FetchResult :=
  unwrap "Failed to fetch chat history" r.

Definition getPdf (r : Fetched unit) : Pdf.FetchResult :=
  unwrap "Get PDF failed" r.

(** One element of [data.chats] as the server sends it; a field the code
    guards with [||] or [??] may be missing. *)
Record RawChat := mkRawChat {
  raw_chat_id : jsstring;
  raw_pdf_id : option jsstring;
  raw_pdf_filename : jsstring;
  raw_created_at : jsstring;
  raw_last_accessed : option jsstring;
  raw_thumbnail_url : option jsstring;
  raw_num_pages : option Z
}.

(** [interface ChatSummary], the fields the dashboard reads. *)
Record ChatSummary := mkChatSummary {
  chat_id : jsstring;
  pdf_id : option jsstring;
  pdf_filename : jsstring;
  created_at : jsstring;
  last_accessed : option jsstring;
  thumbnail_url : jsstring;
  num_pages : Z
}.

(** The element function of [data.chats.map(...)] in [getAllChats]:
    [thumbnail_url: c.thumbnail_url || ""], [num_pages: c.num_pages ?? 0]. *)
Definition summarize (c : RawChat) : ChatSummary :=
  mkChatSummary (raw_chat_id c) (raw_pdf_id c) (raw_pdf_filename c)
    (raw_created_at c) (raw_last_accessed c)
    (opt_or_else (raw_thumbnail_url c) (lit ""))
    (match raw_num_pages c with Some n => n | None => 0 end).

Definition getAllChats (r : Fetched (list RawChat))
  : JsError + list ChatSummary :=
  match unwrap "Failed to fetch chats" r with
  | inl err => inl err
  | inr chats => inr (map summarize chats)
  end.

(** The body of [POST /upload_pdf/]. *)
Record UploadResponse := mkUpload {
  up_message : option jsstring;
  up_chat_id : option jsstring;
  up_pdf_id : option jsstring
}.

Definition uploadPdf (r : Fetched UploadResponse) : JsError + UploadResponse :=
  unwrap "Upload failed" r.

End Api.

(** ** The answer actions of the chat page ([toPlainText],
    [copyToClipboard], [handleAction]) *)

Module Actions.

(** [/[a-z]/i] on one code unit: without the [u] flag the ASCII letters
    and nothing else. *)
Definition isAsciiLetter (c : N) : bool :=
  ((65 <=? c) && (c <=? 90) || (97 <=? c) && (c <=? 122))%N.

(** [/<[a-z][\s\S]*>/i.test(s)]: somewhere a "<" directly followed by a
    letter, and a ">" anywhere after that letter. *)
Fixpoint looksLikeHtml (s : jsstring) : bool :=
  match s with
  | c :: tl =>
      match tl with
      | d :: rest =>
          (N.eqb c 60 && isAsciiLetter d && existsb (N.eqb 62) rest)
          || looksLikeHtml tl
      | [] => false
      end
  | [] => false
  end.

(** [toPlainText(content)] for [content?: string]; [domText s] is what
    [div.textContent || div.innerText || ""] reads after
    [div.innerHTML = s]. *)
Definition toPlainText (domText : jsstring -> jsstring)
    (content : option jsstring) : jsstring :=
  match content with
  | None => lit ""
  | Some s => if looksLikeHtml s then domText s else s
  end.

(** What [document.execCommand("copy")] does. *)
Inductive ExecResult := ExecTrue | ExecFalse | ExecThrows (err : JsError).

(** The browser under [copyToClipboard]: whether
    [navigator.clipboard.writeText] exists, whether writing a text with it
    succeeds, and what [execCommand] does for a selected text. *)
Record Browser := mkBrowser {
  hasClipboardApi : bool;
  writeText : jsstring -> bool;
  execCommand : jsstring -> ExecResult
}.

Inductive Event :=
| EvWriteText (text : jsstring)     (* navigator.clipboard.writeText(text) *)
| EvExecCopy (text : jsstring)      (* execCommand("copy") on the textarea *)
| EvCancelSpeech                    (* window.speechSynthesis.cancel() *)
| EvSpeak (text : jsstring)         (* window.speechSynthesis.speak(...) *)
| EvToast (t : Toast).

(** [copyToClipboard(rawContent)]: the effects, and whether it returns
    ([true]) or throws.  The guard [if (!text && text !== "")] never
    fires on a string.  In [part_001] the result of [execCommand] is
    dropped; in [src/pages/Chat.tsx] a [false] is thrown as an error. *)
Definition copyToClipboard (v : Variant) (b : Browser)
    (domText : jsstring -> jsstring) (rawContent : option jsstring)
  : list Event * bool :=
  let text := toPlainText domText rawContent in
  let fallback :=
    match execCommand b text with
    | ExecTrue => ([EvExecCopy text], true)
    | ExecFalse =>
        ([EvExecCopy text],
         match v with SessionChat => true | PagesChat => false end)
    | ExecThrows _ => ([EvExecCopy text], false)
    end in
  if hasClipboardApi b then
    if writeText b text then ([EvWriteText text], true)
    else (EvWriteText text :: fst fallback, snd fallback)
  else fallback.

(** The state [handleAction] writes. *)
Record Slide := mkSlide {
  selectedAnswer : jsstring;
  showSlideModal : bool
}.

Definition note (t d : string) : Toast := mkToast (lit t) (lit d) false.

(** [handleAction(action, content)]. *)
Definition handleAction (v : Variant) (b : Browser)
    (domText : jsstring -> jsstring) (action : jsstring)
    (content : option jsstring) (s : Slide) : Slide * list Event :=
  if eqb action (lit "slide") then
    (mkSlide (opt_or_else content (lit "")) true, [])
  else if eqb action (lit "translate") then
    (s, [EvToast
           (match v with
            | SessionChat => note "Translation" "Feature coming soon!"
            | PagesChat => note "Translation" "Translation feature coming soon!"
            end)])
  else if eqb action (lit "speak") then
    match content with
    | Some (c :: text) =>
        (s, [EvCancelSpeech; EvSpeak (c :: text)]
            ++ match v with
               | SessionChat => []
               | PagesChat =>
                   [EvToast (note "Speaking..." "Text-to-speech started")]
               end)
    | _ => (s, [EvToast (note "Error" "No text available to speak.")])
    end
  else if eqb action (lit "copy") then
    let '(evs, ok) := copyToClipboard v b domText content in
    (s, evs ++
        [EvToast
           (if ok then note "Copied" "Answer copied to clipboard"
            else match v with
                 | SessionChat => note "Copy failed" "Could not copy text."
                 | PagesChat =>
                     note "Copy failed"
                       "Could not copy text. Try selecting and copying manually."
                 end)])
  else if eqb action (lit "like") then
    (s, [EvToast (note "Liked" "Answer saved to favorites")])
  else if eqb action (lit "highlight") then
    (s, [EvToast
           (match v with
            | SessionChat => note "Highlight" "PDF highlight coming soon!"
            | PagesChat => note "Highlight" "PDF highlight feature coming soon!"
            end)])
  else (s, []).

End Actions.

(** ** The dashboard ([Dashboard] in [src/pages/Chat.tsx], lines 551-813) *)

Module Dashboard.

(** [interface PDF]: one card of the list. *)
Record PDF := mkPDF {
  id : jsstring;
  title : jsstring;
  lastUsed : jsstring;
  pages : Z;
  thumbnail : jsstring;
  pdfId : jsstring
}.

(** The element function of [res.chats.map(...)] in [fetchChats]. *)
Definition toCard (c : Api.ChatSummary) : PDF :=
  mkPDF (Api.chat_id c) (Api.pdf_filename c)
    (opt_or_else (Api.last_accessed c) (Api.created_at c))
    (Api.num_pages c)
    (if truthy (Api.thumbnail_url c)
        && (0 <? Z.of_nat (length (Api.thumbnail_url c)))
     then Api.thumbnail_url c else lit "/placeholder.svg")
    (opt_or_else (Api.pdf_id c) (lit "")).

(** The cards [fetchChats] hands to [setPdfs] for a response of
    [GET /all_chats/]; on failure [setPdfs] is not called. *)
Definition cardsOf (r : Api.Fetched (list Api.RawChat)) : option (list PDF) :=
  match Api.getAllChats r with
  | inr chats => Some (map toCard chats)
  | inl _ => None
  end.

(** A [File] as far as the page looks at it. *)
Record File := mkFile { name : jsstring; type : jsstring }.

Inductive Event :=
| EvCloseModal                      (* setShowCategoryModal(false) *)
| EvToast (t : Toast)
| EvUpload (f : File)               (* POST /upload_pdf/ issued *)
| EvNavigate (to : jsstring).

(** A template literal prints [undefined] as the word. *)
Definition printed (o : option jsstring) : jsstring :=
  match o with Some s => s | None => lit "undefined" end.

(** [err?.message || String(err)]. *)
Definition uploadFailed (err : JsError) : Toast :=
  mkToast (lit "Upload Failed") (opt_or_else (message err) (asString err)) true.

(** [handleCategorySelect(category)], run to its end: the effects in
    order and the value of [selectedFileRef.current] afterwards.
    [uploadedFileName] and [selectedFile] are the state and the ref the
    handler reads, [upload f] is what [await uploadPdf([f])] does (a
    body that is not an object counts as a throw: reading [res.message]
    throws before any further effect).  The category is not used by the
    handler. *)
Definition handleCategorySelect (uploadedFileName : jsstring)
    (selectedFile : option File) (upload : File -> JsError + Api.UploadResponse)
  : list Event * option File :=
  let uploading :=
    EvToast (mkToast (lit "Uploading")
               (lit "Uploading " ++ uploadedFileName ++ lit "...") false) in
  let rest :=
    match selectedFile with
    | None => [EvToast (uploadFailed (Api.newError "No file selected"))]
    | Some f =>
        EvUpload f ::
        match upload f with
        | inl err => [EvToast (uploadFailed err)]
        | inr res =>
            EvToast (mkToast (lit "Upload Complete")
                       (opt_or_else (Api.up_message res) (lit "PDF uploaded"))
                       false) ::
            (if truthy_opt (Api.up_chat_id res) then
               [EvNavigate
                  (lit "/chat/" ++ printed (Api.up_chat_id res)
                   ++ lit "?pdf=" ++ printed (Api.up_pdf_id res))]
             else
               [EvToast
                  (uploadFailed
                     (Api.newError "No chat ID returned from server"))])
        end
    end in
  (EvCloseModal :: uploading :: rest, None).

(** [handlePDFClick(chatId, pdfId)]. *)
Definition handlePDFClick (chatId pdfId : jsstring) : jsstring :=
  lit "/chat/" ++ chatId ++ lit "?pdf=" ++ pdfId.

Definition navigations (l : list Event) : list jsstring :=
  flat_map (fun e => match e with EvNavigate p => [p] | _ => [] end) l.

Definition uploads (l : list Event) : list File :=
  flat_map (fun e => match e with EvUpload f => [f] | _ => [] end) l.

Definition failures (l : list Event) : list Toast :=
  flat_map (fun e => match e with
                     | EvToast t => if destructive t then [t] else []
                     | _ => []
                     end) l.

End Dashboard.

(** * Properties *)

(** ** Strings *)

Section JsFacts.

Lemma eqb_refl (s : jsstring) : eqb s s = true.
Proof.
  induction s as [|c s IH]; simpl; [reflexivity|].
  rewrite N.eqb_refl. exact IH.
Qed.

Lemma eqb_eq (s t : jsstring) : eqb s t = true <-> s = t.
Proof.
  split; [|intros ->; apply eqb_refl].
  revert t. induction s as [|c s IH]; intros [|d t]; simpl; try discriminate.
  - reflexivity.
  - intros H. apply andb_prop in H as [Hc Hs].
    apply N.eqb_eq in Hc. f_equal; [exact Hc | exact (IH _ Hs)].
Qed.

Lemma startsWith_app (p s : jsstring) : startsWith (p ++ s) p = true.
Proof.
  induction p as [|c p IH]; simpl; [now destruct s|].
  rewrite N.eqb_refl. exact IH.
Qed.

Lemma startsWith_truthy (s : jsstring) :
  startsWith s (lit "chat_") = true -> truthy s = true.
Proof. destruct s; [discriminate | reflexivity]. Qed.

Lemma lit_inj (a b : string) : lit a = lit b -> a = b.
Proof.
  unfold lit. intros H.
  rewrite <- (string_of_list_ascii_of_string a),
          <- (string_of_list_ascii_of_string b).
  f_equal.
  revert H. generalize (list_ascii_of_string a) (list_ascii_of_string b).
  intros x. induction x as [|c x IH]; intros [|d y]; simpl; try discriminate.
  - reflexivity.
  - intros H. injection H as Hc Hx. f_equal; [|exact (IH _ Hx)].
    rewrite <- (ascii_N_embedding c), <- (ascii_N_embedding d).
    now rewrite Hc.
Qed.

(** Two integers print the same only if they are equal. *)
Lemma toString_inj (a b : Z) : toString a = toString b -> a = b.
Proof.
  unfold toString. intros H. apply lit_inj in H.
  apply DecimalZ.to_int_inj.
  assert (E : NilEmpty.int_of_string (NilEmpty.string_of_int (Z.to_int a))
              = NilEmpty.int_of_string (NilEmpty.string_of_int (Z.to_int b)))
    by (now rewrite H).
  rewrite !NilEmpty.isi in E. now injection E.
Qed.

Lemma trimStart_blank (s : jsstring) :
  Forall (fun c => isWhiteSpace c = true) s -> trimStart s = [].
Proof.
  induction 1 as [|c s Hc _ IH]; simpl; [reflexivity|].
  rewrite Hc. exact IH.
Qed.

(** [trim] of a string of white space is the empty string. *)
Lemma trim_blank (s : jsstring) :
  Forall (fun c => isWhiteSpace c = true) s -> trim s = [].
Proof.
  intros H. unfold trim, trimEnd. rewrite (trimStart_blank s H). reflexivity.
Qed.

Lemma trimStart_suffix (s : jsstring) :
  exists p, s = p ++ trimStart s /\ Forall (fun c => isWhiteSpace c = true) p.
Proof.
  induction s as [|c s [p [E F]]]; simpl.
  - exists []. split; [reflexivity | constructor].
  - destruct (isWhiteSpace c) eqn:Hc.
    + exists (c :: p). split; [simpl; now rewrite <- E | now constructor].
    + exists []. split; [reflexivity | constructor].
Qed.

(** The guard [!input.trim()] holds exactly for the strings of white
    space, the empty one included. *)
Lemma trim_empty_iff (s : jsstring) :
  trim s = [] <-> Forall (fun c => isWhiteSpace c = true) s.
Proof.
  split; [|apply trim_blank].
  unfold trim, trimEnd. intros H.
  destruct (trimStart_suffix s) as [p [E F]].
  destruct (trimStart_suffix (rev (trimStart s))) as [q [E' F']].
  assert (R : rev (rev (trimStart (rev (trimStart s)))) = rev [])
    by (now rewrite H).
  rewrite rev_involutive in R. simpl in R. rewrite R, app_nil_r in E'.
  rewrite E. apply Forall_app. split; [exact F|].
  rewrite <- (rev_involutive (trimStart s)), E'.
  apply Forall_rev. exact F'.
Qed.

End JsFacts.

(** ** Session-key resolution *)

Section ResolverFacts.

Import Resolver.

Lemma pdfIdOf_available (q : option jsstring) :
  documentKeyAvailable q =
    if truthy (pdfIdOf q) then Some (pdfIdOf q) else None.
Proof. destruct q as [[|c d]|]; reflexivity. Qed.

(** C1.  For every route parameter and query parameter, the session key
    the page computes is the one of the three-case resolution order: the
    route parameter itself when it starts with "chat_", else "chat_"
    followed by the document key when one is available, else undefined.
    The result is a function of the two inputs alone, and a route
    parameter of the form "chat_..." is the session key whatever the
    query parameter is. *)
Theorem resolve_refines_reference :
  (forall r q : option jsstring,
      sessionKey (resolve r q) = resolve_reference r q) /\
  (forall (k : jsstring) (q : option jsstring),
      sessionKey (resolve (Some (lit "chat_" ++ k)) q)
      = Some (lit "chat_" ++ k)).
Proof.
  split.
  - intros r q. unfold resolve, resolve_reference, effectiveChatId. simpl.
    rewrite pdfIdOf_available. unfold concat.
    destruct r as [r|].
    + destruct (startsWith r (lit "chat_")) eqn:Hp.
      * now rewrite (startsWith_truthy r Hp).
      * rewrite andb_false_r. now destruct (truthy (pdfIdOf q)).
    + now destruct (truthy (pdfIdOf q)).
  - intros k q. unfold resolve. cbn [sessionKey]. unfold effectiveChatId.
    rewrite startsWith_app. reflexivity.
Qed.

(** C3, as the code has it.  A route parameter that does not start with
    "chat_" is never used as the session key: the page resolves exactly
    as if the route parameter were absent, to "chat_" followed by the
    document key when that is not empty and to undefined otherwise. *)
Theorem unprefixed_route_is_ignored (r : jsstring) (q : option jsstring) :
  startsWith r (lit "chat_") = false ->
  sessionKey (resolve (Some r) q) = sessionKey (resolve None q) /\
  sessionKey (resolve (Some r) q) = derivedKey q /\
  sessionKey (resolve (Some r) q) <> Some r.
Proof.
  intros Hp. unfold resolve, derivedKey. cbn [sessionKey].
  unfold effectiveChatId, concat. rewrite Hp, andb_false_r.
  repeat split.
  destruct (truthy (pdfIdOf q)); [|discriminate].
  intros E.
  assert (E' : lit "chat_" ++ pdfIdOf q = r) by congruence.
  rewrite <- E', startsWith_app in Hp. discriminate Hp.
Qed.

Lemma unprefixed_route_is_ignored_witness :
  sessionKey (resolve (Some (lit "abc123")) (Some (lit "doc1")))
  = derivedKey (Some (lit "doc1")).
Proof.
  apply (unprefixed_route_is_ignored (lit "abc123") (Some (lit "doc1"))).
  reflexivity.
Defined.

(** C3, as the specification words it, fails: the route parameter
    "abc123" does not start with "chat_", and with the document key
    "doc1" the session key is "chat_doc1", not "abc123". *)
Lemma unprefixed_route_not_passed_through :
  startsWith (lit "abc123") (lit "chat_") = false /\
  sessionKey (resolve (Some (lit "abc123")) (Some (lit "doc1")))
  = Some (lit "chat_doc1") /\
  ~ (forall (r : jsstring) (q : option jsstring),
        startsWith r (lit "chat_") = false ->
        sessionKey (resolve (Some r) q) = Some r).
Proof.
  split; [reflexivity|]. split; [reflexivity|].
  intros H.
  specialize (H (lit "abc123") (Some (lit "doc1")) eq_refl).
  discriminate H.
Qed.

End ResolverFacts.

(** ** Sending a question *)

Section SendFacts.

Import Send.

Lemma asks_app (l1 l2 : list Event) : asks (l1 ++ l2) = asks l1 ++ asks l2.
Proof. apply flat_map_app. Qed.

Lemma navigations_app (l1 l2 : list Event) :
  navigations (l1 ++ l2) = navigations l1 ++ navigations l2.
Proof. apply flat_map_app. Qed.

(** Reads the requests and navigations off a world built from [emit],
    [appendMessage] and [navigateTo]. *)
Ltac read_log :=
  cbn [navigateTo appendMessage emit log messages];
  rewrite ?navigations_app, ?asks_app;
  cbn [navigations asks flat_map app];
  rewrite ?app_nil_r, <- ?app_assoc.

Lemma strictNeq_some (a b : jsstring) :
  strictNeq (Some a) (Some b) = true <-> a <> b.
Proof.
  simpl. rewrite negb_true_iff. split.
  - intros H E. apply eqb_eq in E. congruence.
  - intros H. destruct (eqb a b) eqn:E; [|reflexivity].
    apply eqb_eq in E. contradiction.
Qed.

Lemma fallbackChat_some (pdfId fb : jsstring) :
  fallbackChat pdfId = Some fb ->
  fb = lit "chat_" ++ pdfId /\ truthy fb = true /\ truthy pdfId = true.
Proof.
  unfold fallbackChat, concat. destruct (truthy pdfId); [|discriminate].
  intros E. split; [congruence|]. split; [|reflexivity].
  assert (E' : lit "chat_" ++ pdfId = fb) by congruence.
  now rewrite <- E'.
Qed.

(** *** The effects of one dispatch, outcome by outcome *)

Section Dispatch.

Variable backend : jsstring -> jsstring -> AskResult.
Variable clock : nat -> Z.

(** Running a task in isolation is resuming it at each suspension
    point with what the backend answers. *)
Lemma run_advance (n : nat) (t : task) (w : World) :
  run backend clock n t w =
    match advance (clock n) t w with
    | (w', None) => w'
    | (w', Some (OnImport k)) => run backend clock (S n) k w'
    | (w', Some (OnAsk c q k)) => run backend clock (S n) (k (backend c q)) w'
    end.
Proof.
  revert w. induction t as [|k IH|m k IH|t k IH|c p k IH|k IH|c q k IH];
    intros w; simpl; auto.
Qed.

Variables (n : nat) (pdfId : jsstring) (um : Message) (w : World).

(** No session key: the notification, and nothing else. *)
Lemma dispatch_no_session (eff : option jsstring) :
  truthy_opt eff = false ->
  dispatch backend clock n eff pdfId um w = emit (EvToast missingChatId) w.
Proof.
  intros Ht. unfold dispatch, askFlow.
  destruct eff as [chat|]; [|reflexivity].
  simpl in Ht. now rewrite Ht.
Qed.

(** The primary request succeeds: the request, then the reply. *)
Lemma dispatch_primary_ok (chat : jsstring) (res : AskResponse) :
  truthy chat = true ->
  backend chat (content um) = inr res ->
  dispatch backend clock n (Some chat) pdfId um w =
    appendMessage (aiResp (clock (S (S n))) 1 res)
      (emit (EvAsk chat (content um)) w).
Proof.
  intros Ht Hb. unfold dispatch, askFlow. rewrite Ht. cbn [run].
  now rewrite Hb.
Qed.

(** The primary request fails and there is no usable alternate key: the
    request, the notification of its error, the placeholder. *)
Lemma dispatch_no_fallback (chat : jsstring) (err : JsError) :
  truthy chat = true ->
  backend chat (content um) = inl err ->
  fallbackChat pdfId = None \/ fallbackChat pdfId = Some chat ->
  dispatch backend clock n (Some chat) pdfId um w =
    appendMessage (failedResp (clock (S (S n))) 4)
      (emit (EvToast (serverError err)) (emit (EvAsk chat (content um)) w)).
Proof.
  intros Ht Hb Hf. unfold dispatch, askFlow. rewrite Ht. cbn [run].
  rewrite Hb. destruct Hf as [-> | ->]; [reflexivity|].
  rewrite Ht. cbn [strictNeq]. rewrite eqb_refl. reflexivity.
Qed.

(** The primary request fails and the alternate key differs from the
    primary one: a second request, and then either the reply and the
    navigation, or the notification of the second error and the
    placeholder. *)
Lemma dispatch_fallback (chat alt : jsstring) (err : JsError) :
  truthy chat = true ->
  backend chat (content um) = inl err ->
  fallbackChat pdfId = Some alt ->
  alt <> chat ->
  dispatch backend clock n (Some chat) pdfId um w =
    match backend alt (content um) with
    | inr res2 =>
        navigateTo alt pdfId
          (appendMessage (aiResp (clock (S (S (S (S n))))) 2 res2)
             (emit (EvAsk alt (content um))
                (emit (EvAsk chat (content um)) w)))
    | inl err2 =>
        appendMessage (failedResp (clock (S (S (S (S n))))) 3)
          (emit (EvToast (serverError err2))
             (emit (EvAsk alt (content um))
                (emit (EvAsk chat (content um)) w)))
    end.
Proof.
  intros Ht Hb Hf Hne. unfold dispatch, askFlow. rewrite Ht. cbn [run].
  rewrite Hb, Hf.
  destruct (fallbackChat_some _ _ Hf) as (_ & Hta & _). rewrite Hta.
  replace (strictNeq (Some alt) (Some chat)) with true
    by (symmetry; now apply strictNeq_some).
  cbn [andb run]. destruct (backend alt (content um)); reflexivity.
Qed.


End Dispatch.

(** *** The dispatch claims *)

Section DispatchClaims.

Variable backend : jsstring -> jsstring -> AskResult.
Variable clock : nat -> Z.
Variables (n : nat) (um : Message) (w : World).

(** C9.  When the render has no session key, the dispatch of a question
    ends at once with the "Missing chat id" notification: whatever the
    backend would answer, no request is issued and no message is added. *)
Theorem no_session_no_request (route query : option jsstring) :
  Resolver.sessionKey (Resolver.resolve route query) = None ->
  log (dispatch backend clock n
         (Resolver.sessionKey (Resolver.resolve route query))
         (Resolver.documentKey (Resolver.resolve route query)) um w)
  = log w ++ [EvToast missingChatId] /\
  asks (log (dispatch backend clock n
               (Resolver.sessionKey (Resolver.resolve route query))
               (Resolver.documentKey (Resolver.resolve route query)) um w))
  = asks (log w) /\
  messages (dispatch backend clock n
              (Resolver.sessionKey (Resolver.resolve route query))
              (Resolver.documentKey (Resolver.resolve route query)) um w)
  = messages w.
Proof.
  intros H. rewrite H, dispatch_no_session by reflexivity.
  read_log. auto.
Qed.

(** C4.  When the request against the primary session key fails: if the
    alternate key "chat_" + documentKey is undefined (the document key is
    empty) or is the primary key itself, the dispatch issues no second
    request; it shows the "Server error" notification whose text is the
    message of the primary request's error (the text "Failed to get
    answer from server" when that error has no message) and adds the
    placeholder "Failed to get answer from server." as an assistant
    message; and in every case the dispatch issues the primary request
    and at most one more, addressed to "chat_" + documentKey. *)
Theorem fallback_at_most_once (chat pdfId : jsstring) (err : JsError) :
  truthy chat = true ->
  backend chat (content um) = inl err ->
  (pdfId = [] \/ lit "chat_" ++ pdfId = chat ->
     log (dispatch backend clock n (Some chat) pdfId um w)
     = log w ++
       [EvAsk chat (content um);
        EvToast
          (mkToast (lit "Server error")
             (match message err with
              | Some (c :: m) => c :: m
              | _ => lit "Failed to get answer from server"
              end)
             true)] /\
     messages (dispatch backend clock n (Some chat) pdfId um w)
     = messages w ++
       [mkMessage (toString (clock (S (S n)) + 4)) assistant
          (lit "Failed to get answer from server.") (lit "Just now")]) /\
  (asks (log (dispatch backend clock n (Some chat) pdfId um w))
   = asks (log w) ++ [(chat, content um)] \/
   asks (log (dispatch backend clock n (Some chat) pdfId um w))
   = asks (log w) ++ [(chat, content um); (lit "chat_" ++ pdfId, content um)]).
Proof.
  intros Ht Hb. split.
  - intros Hk.
    assert (Hf : fallbackChat pdfId = None \/ fallbackChat pdfId = Some chat).
    { destruct Hk as [-> | <-]; [now left|].
      unfold fallbackChat, concat. destruct (truthy pdfId); [now right | now left]. }
    rewrite (dispatch_no_fallback _ _ _ _ _ _ _ _ Ht Hb Hf).
    cbn [appendMessage emit log messages]. rewrite <- app_assoc.
    split; [|reflexivity].
    unfold serverError, opt_or_else, or_else.
    now destruct (message err) as [[|c m]|].
  - destruct (fallbackChat pdfId) as [alt|] eqn:Hf.
    + destruct (decide (alt = chat)) as [->|Hne].
      * left. rewrite (dispatch_no_fallback _ _ _ _ _ _ _ _ Ht Hb (or_intror Hf)).
        now read_log.
      * right. rewrite (dispatch_fallback _ _ _ _ _ _ _ _ _ Ht Hb Hf Hne).
        destruct (fallbackChat_some _ _ Hf) as (-> & _ & _).
        destruct (backend (lit "chat_" ++ pdfId) (content um)); now read_log.
    + left. rewrite (dispatch_no_fallback _ _ _ _ _ _ _ _ Ht Hb (or_introl Hf)).
      now read_log.
Qed.


End DispatchClaims.

Lemma no_session_no_request_witness :
  Resolver.sessionKey (Resolver.resolve (Some (lit "abc")) None) = None /\
  asks (log (dispatch (fun _ _ => inr (mkAnswer None)) (fun _ => 0) 0
               (Resolver.sessionKey (Resolver.resolve (Some (lit "abc")) None))
               (Resolver.documentKey (Resolver.resolve (Some (lit "abc")) None))
               (userMessage 7 (lit "hi")) (mount (Some (lit "abc")) None)))
  = [].
Proof.
  split; [reflexivity|].
  apply (no_session_no_request (fun _ _ => inr (mkAnswer None)) (fun _ => 0)
           0%nat (userMessage 7 (lit "hi")) (mount (Some (lit "abc")) None)
           (Some (lit "abc")) None).
  reflexivity.
Defined.

Lemma fallback_at_most_once_witness :
  lit "chat_" ++ lit "d1" = lit "chat_d1" /\
  log (dispatch
         (fun _ _ => inl (mkError (Some (lit "Ask failed")) (lit "Error: Ask failed")))
         (fun _ => 1000) 0 (Some (lit "chat_d1")) (lit "d1")
         (userMessage 7 (lit "hi")) (mount None (Some (lit "d1"))))
  = [EvAsk (lit "chat_d1") (lit "hi");
     EvToast (mkToast (lit "Server error") (lit "Ask failed") true)].
Proof.
  split; [reflexivity|].
  destruct (fallback_at_most_once
              (fun _ _ => inl (mkError (Some (lit "Ask failed")) (lit "Error: Ask failed")))
              (fun _ => 1000) 0%nat
              (userMessage 7 (lit "hi")) (mount None (Some (lit "d1")))
              (lit "chat_d1") (lit "d1")
              (mkError (Some (lit "Ask failed")) (lit "Error: Ask failed"))
              eq_refl eq_refl) as [H _].
  destruct (H (or_intror eq_refl)) as [Hlog _].
  rewrite Hlog. reflexivity.
Defined.



(** *** The optimistic append *)

(** Whatever a task does up to its next suspension point, it only adds
    messages at the end of the log. *)
Lemma advance_appends (now : Z) (t : task) (w : World) :
  exists l, messages (advance now t w).1 = messages w ++ l.
Proof.
  revert w. induction t as [|k IH|m k IH|t k IH|c p k IH|k IH|c q k IH];
    intros w; cbn [advance fst].
  - exists []. now rewrite app_nil_r.
  - apply IH.
  - destruct (IH (appendMessage m w)) as [l E]. exists (m :: l).
    rewrite E. cbn [appendMessage messages]. now rewrite <- app_assoc.
  - apply (IH (emit (EvToast t) w)).
  - apply (IH (navigateTo c p w)).
  - exists []. now rewrite app_nil_r.
  - exists []. cbn [emit messages]. now rewrite app_nil_r.
Qed.

Lemma resume_appends (i : nat) (now : Z) (r : AskResult) (w : World) :
  exists l, messages (resume i now r w) = messages w ++ l.
Proof.
  unfold resume.
  destruct (pending w !! i) as [[[k|c q k]|]|];
    try (exists []; now rewrite app_nil_r).
  - destruct (advance_appends now k w) as [l E].
    destruct (advance now k w) as [w' s]. exists l. exact E.
  - destruct (advance_appends now (k r) w) as [l E].
    destruct (advance now (k r) w) as [w' s]. exists l. exact E.
Qed.

Lemma handleSend_appends (v : Variant) (now : Z) (w : World) :
  exists l, messages (handleSend v now w) = messages w ++ l.
Proof.
  unfold handleSend. destruct (negb (truthy (trim (input w)))).
  - exists []. now rewrite app_nil_r.
  - set (um := userMessage now (input w)).
    set (w1 := setInput (lit "") (appendMessage um w)).
    destruct (advance_appends now (flowOf v w um) w1) as [l E].
    destruct (advance now (flowOf v w um) w1) as [w2 s].
    exists (um :: l). cbn [setPending messages fst] in *. rewrite E.
    subst w1. cbn [setInput appendMessage messages].
    now rewrite <- app_assoc.
Qed.

(** X21.  The message log is append-only under typing, sending and the
    steps of the dispatches, in both variants: what is in the log stays
    there, unchanged and in place, and new messages go to the end (a
    reload of the history, see [History], replaces the log and is not
    one of these steps). *)
Lemma steps_append (v : Variant) (acts : list Action) (w : World) :
  exists l, messages (steps v acts w) = messages w ++ l.
Proof.
  revert w. induction acts as [|a acts IH]; intros w.
  - exists []. simpl. now rewrite app_nil_r.
  - assert (Ha : exists l, messages (step v a w) = messages w ++ l).
    { destruct a as [s|now|i now r]; cbn [step].
      - exists []. cbn [setInput messages]. now rewrite app_nil_r.
      - apply handleSend_appends.
      - apply resume_appends. }
    destruct Ha as [l1 E1]. destruct (IH (step v a w)) as [l2 E2].
    exists (l1 ++ l2). unfold steps in *. cbn [fold_left].
    rewrite E2, E1. now rewrite <- app_assoc.
Qed.

(** The first thing either variant of the dispatch does is yield. *)
Lemma flowOf_yields_first (v : Variant) (w : World) (um : Message) :
  exists k, flowOf v w um = AwaitImport k.
Proof. destruct v; unfold flowOf, askFlow, askFlowPages; eauto. Qed.

(** C2, as the code has it.  For every input with a character that is
    not white space, [handleSend] called at clock reading [now] appends,
    as the last element of the log, a user message whose content is the
    input and whose id is the decimal form of [now]; it empties the
    input field; when it returns no request has been issued and the
    dispatch waits at its first suspension point; and two such messages
    have the same id only if their clock readings are equal. *)
Theorem optimistic_append (v : Variant) (now : Z) (w : World) :
  truthy (trim (input w)) = true ->
  messages (handleSend v now w)
  = messages w ++ [mkMessage (toString now) user (input w) (lit "Just now")] /\
  input (handleSend v now w) = lit "" /\
  log (handleSend v now w) = log w /\
  (exists k, pending (handleSend v now w) = pending w ++ [Some (OnImport k)]) /\
  (forall (now' : Z) (text' : jsstring),
      id (userMessage now' text') = id (userMessage now (input w)) ->
      now' = now).
Proof.
  intros Ht.
  assert (E : exists k,
             handleSend v now w =
             setPending (pending w ++ [Some (OnImport k)])
               (setInput (lit "")
                  (appendMessage (userMessage now (input w)) w))).
  { unfold handleSend. rewrite Ht. cbn [negb].
    destruct (flowOf_yields_first v w (userMessage now (input w))) as [k ->].
    exists k. reflexivity. }
  destruct E as [k E].
  split; [now rewrite E|]. split; [now rewrite E|]. split; [now rewrite E|].
  split; [exists k; now rewrite E|].
  intros now' text' H. cbn [userMessage id] in H. exact (toString_inj _ _ H).
Qed.

Lemma optimistic_append_witness :
  truthy (trim (lit " hi ")) = true /\
  messages (handleSend SessionChat 1000
              (setInput (lit " hi ") (mount None (Some (lit "d1")))))
  = [mkMessage (lit "1000") user (lit " hi ") (lit "Just now")].
Proof.
  split; [reflexivity|].
  apply (optimistic_append SessionChat 1000
           (setInput (lit " hi ") (mount None (Some (lit "d1"))))).
  reflexivity.
Defined.

(** C2, as the specification words it, fails twice.  The input " " is
    not empty, yet sending it appends nothing; and two questions sent at
    the same clock reading get the same id. *)
Lemma appendUser_not_for_every_content_nor_collision_free :
  truthy (lit " ") = true /\
  messages (handleSend SessionChat 1000
              (setInput (lit " ") (mount None (Some (lit "d1")))))
  = [] /\
  map id
    (messages
       (steps SessionChat
          [TypeInput (lit "a"); ClickSend 1000;
           TypeInput (lit "b"); ClickSend 1000]
          (mount None (Some (lit "d1")))))
  = [lit "1000"; lit "1000"].
Proof. repeat split; reflexivity. Qed.

(** C10.  When the input field is empty or holds only white space,
    [handleSend] changes nothing: the message log, the input field, the
    requests issued and the started dispatches are as before. *)
Theorem blank_send_is_noop (v : Variant) (now : Z) (w : World) :
  Forall (fun c => isWhiteSpace c = true) (input w) ->
  handleSend v now w = w.
Proof.
  intros H. unfold handleSend.
  now rewrite (proj2 (trim_empty_iff (input w)) H).
Qed.

Lemma blank_send_is_noop_witness :
  Forall (fun c => isWhiteSpace c = true) [32%N; 9%N; 160%N] /\
  handleSend PagesChat 1000
    (setInput [32%N; 9%N; 160%N] (mount (Some (lit "d1")) None))
  = setInput [32%N; 9%N; 160%N] (mount (Some (lit "d1")) None).
Proof.
  assert (F : Forall (fun c => isWhiteSpace c = true) [32%N; 9%N; 160%N])
    by (repeat constructor).
  split; [exact F|].
  exact (blank_send_is_noop PagesChat 1000
           (setInput [32%N; 9%N; 160%N] (mount (Some (lit "d1")) None)) F).
Defined.

End SendFacts.

(** ** Loading the chat history *)

Section HistoryFacts.

Import History.

Variable v : Variant.

(** A run that has been cleaned up stays so: nothing sets [isMounted]
    back to [true], and later runs are other instances. *)
Lemma cleanup_keeps_stale (i j : nat) (s : State) :
  (exists l, loads s !! i = Some l /\ isMounted l = false) ->
  exists l, loads (cleanup j s) !! i = Some l /\ isMounted l = false.
Proof.
  intros (l & Hl & Hm). unfold cleanup.
  destruct (loads s !! j) as [lj|] eqn:Hj; [|eauto].
  cbn [setLoad loads]. destruct (decide (j = i)) as [->|Hne].
  - eexists. split; [apply list_lookup_insert_eq; eapply lookup_lt_Some, Hl|].
    reflexivity.
  - exists l. now rewrite list_lookup_insert_ne.
Qed.

Lemma cleanup_makes_stale (i : nat) (l : Load) (s : State) :
  loads s !! i = Some l ->
  exists l', loads (cleanup i s) !! i = Some l' /\ isMounted l' = false.
Proof.
  intros Hl. unfold cleanup. rewrite Hl. cbn [setLoad loads].
  eexists. split; [apply list_lookup_insert_eq; eapply lookup_lt_Some, Hl|].
  reflexivity.
Qed.

Lemma runEffect_keeps_stale (i : nat) (k : option jsstring) (s : State) :
  (exists l, loads s !! i = Some l /\ isMounted l = false) ->
  exists l, loads (runEffect v k s) !! i = Some l /\ isMounted l = false.
Proof.
  intros (l & Hl & Hm). exists l. split; [|exact Hm].
  unfold runEffect. destruct (truthy_opt k); [|destruct v];
    cbn [loads]; now apply lookup_app_l_Some.
Qed.

Lemma step_keeps_stale (i : nat) (a : Action) (s : State) :
  (exists l, loads s !! i = Some l /\ isMounted l = false) ->
  exists l, loads (step v a s) !! i = Some l /\ isMounted l = false.
Proof.
  intros H. destruct a as [k|j r|]; cbn [step].
  - unfold render. destruct (current s) as [c|].
    + destruct (loads s !! c) as [lc|].
      * destruct (bool_decide (key lc = k)); [exact H|].
        now apply runEffect_keeps_stale, cleanup_keeps_stale.
      * now apply runEffect_keeps_stale.
    + now apply runEffect_keeps_stale.
  - destruct H as (l & Hl & Hm). unfold settle.
    destruct (loads s !! j) as [lj|] eqn:Hj; [|eauto].
    destruct (inFlight lj); [|eauto].
    assert (H' : exists l', <[j := mkLoad (key lj) (isMounted lj) false]> (loads s) !! i
                            = Some l' /\ isMounted l' = false).
    { destruct (decide (j = i)) as [->|Hne].
      - eexists. split; [apply list_lookup_insert_eq; eapply lookup_lt_Some, Hl|].
        cbn. congruence.
      - exists l. now rewrite list_lookup_insert_ne. }
    unfold afterAwait.
    destruct (negb (isMounted lj)); [exact H'|].
    destruct r; exact H'.
  - unfold unmount. destruct (current s) as [c|]; [|exact H].
    cbn [loads]. now apply cleanup_keeps_stale.
Qed.

Lemma steps_keep_stale (i : nat) (acts : list Action) (s : State) :
  (exists l, loads s !! i = Some l /\ isMounted l = false) ->
  exists l, loads (steps v acts s) !! i = Some l /\ isMounted l = false.
Proof.
  revert s. induction acts as [|a acts IH]; intros s H; [exact H|].
  unfold steps. cbn [fold_left]. apply IH, step_keeps_stale, H.
Qed.

(** The result of a cleaned-up run changes nothing the user can see. *)
Lemma settle_stale_is_invisible (i : nat) (r : FetchResult) (s : State) :
  (exists l, loads s !! i = Some l /\ isMounted l = false) ->
  view (settle v i r s) = view s.
Proof.
  intros (l & Hl & Hm). unfold settle. rewrite Hl.
  destruct (inFlight l); [|reflexivity].
  rewrite Hm. reflexivity.
Qed.

(** C6.  Let the load of run [i] be the one of the active session key
    [A], and let the session key change to a different [B].  Then,
    whatever happens afterwards, the result of that load, success or
    failure, whenever it arrives, changes neither the message log nor
    the loading flag nor the error text. *)
Theorem stale_history_result_discarded
    (s : State) (i : nat) (l : Load) (A B : option jsstring)
    (later : list Action) (r : FetchResult) :
  current s = Some i ->
  loads s !! i = Some l ->
  key l = A ->
  A <> B ->
  messages (settle v i r (steps v later (render v B s)))
  = messages (steps v later (render v B s)) /\
  view (settle v i r (steps v later (render v B s)))
  = view (steps v later (render v B s)).
Proof.
  intros Hc Hl Hk Hne.
  assert (Hs : exists l', loads (render v B s) !! i = Some l'
                          /\ isMounted l' = false).
  { unfold render. rewrite Hc, Hl.
    rewrite bool_decide_eq_false_2 by congruence.
    apply runEffect_keeps_stale, (cleanup_makes_stale i l s Hl). }
  pose proof (settle_stale_is_invisible i r _ (steps_keep_stale i later _ Hs))
    as Hv.
  split; [|exact Hv].
  unfold view in Hv. congruence.
Qed.

End HistoryFacts.

Lemma stale_history_result_discarded_witness :
  History.messages
    (History.settle SessionChat 0
       (inr [History.mkInteraction (lit "q") (lit "a") (lit "t")])
       (History.steps SessionChat []
          (History.render SessionChat (Some (lit "chat_B"))
             (History.render SessionChat (Some (lit "chat_A")) History.init))))
  = [].
Proof.
  destruct (stale_history_result_discarded SessionChat
              (History.render SessionChat (Some (lit "chat_A")) History.init)
              0%nat (History.mkLoad (Some (lit "chat_A")) true true)
              (Some (lit "chat_A")) (Some (lit "chat_B")) []
              (inr [History.mkInteraction (lit "q") (lit "a") (lit "t")])
              eq_refl eq_refl eq_refl) as [H _].
  - discriminate.
  - rewrite H. reflexivity.
Defined.

(** X8.  With the run still mounted, an empty history and a failed load
    leave different single assistant messages in [part_001]. *)
Lemma session_chat_empty_history_distinct
    (s : History.State) (i : nat) (l : History.Load) (err : JsError) :
  History.loads s !! i = Some l ->
  History.inFlight l = true ->
  History.isMounted l = true ->
  History.messages (History.settle SessionChat i (inr []) s)
  = [History.welcome History.emptyHistoryText] /\
  History.messages (History.settle SessionChat i (inl err) s)
  = [History.welcome (History.failureText SessionChat)] /\
  role (History.welcome History.emptyHistoryText) = assistant /\
  History.emptyHistoryText <> History.failureText SessionChat.
Proof.
  intros Hl Hf Hm. unfold History.settle. rewrite Hl, Hf, Hm.
  repeat split. discriminate.
Qed.

(** C8 in [src/pages/Chat.tsx]: a successful load of a session with zero
    interactions leaves the message log empty, where a failed load leaves
    one assistant message. *)
Theorem pages_chat_empty_history_shows_nothing :
  History.messages
    (History.steps PagesChat
       [History.Render (Some (lit "d1")); History.Settle 0 (inr [])]
       History.init)
  = [] /\
  History.messages
    (History.steps PagesChat
       [History.Render (Some (lit "d1"));
        History.Settle 0 (inl (mkError (Some (lit "Failed to fetch chat history"))
                                 (lit "Error: Failed to fetch chat history")))]
       History.init)
  = [History.welcome (History.failureText PagesChat)].
Proof. split; reflexivity. Qed.

(** ** Loading the document *)

Section PdfFacts.

Import Pdf.

Lemma consistent_init : consistent init.
Proof.
  split; [|split]; [intros i f H; discriminate H ..| reflexivity].
Qed.

Lemma held_at_most_one (s : State) : (length (held s) <= 1)%nat.
Proof.
  unfold held. destruct (current s) as [i|]; [|simpl; lia].
  destruct (fetches s !! i) as [f|]; [|simpl; lia].
  destruct (currentUrl f); simpl; lia.
Qed.

(** After the cleanup of the current run of [part_001], no run is
    mounted and no object URL is live. *)
Lemma cleanup_current_releases (s : State) (i : nat) :
  consistent s ->
  current s = Some i ->
  (forall j f, fetches (cleanup SessionChat i s) !! j = Some f ->
               inFlight f = true -> currentUrl f = None) /\
  (forall j f, fetches (cleanup SessionChat i s) !! j = Some f ->
               isMounted f = false) /\
  live (cleanup SessionChat i s) = [].
Proof.
  intros (Hfl & Hmo & Hlive) Hc. unfold cleanup.
  destruct (fetches s !! i) as [f|] eqn:Hf.
  - assert (Hfetch : forall o, fetches (revokeIf o
              (setFetch i (mkFetch (pdfId f) false (currentUrl f)
                             (closurePdfUrl f) (inFlight f)) s))
            = <[i := mkFetch (pdfId f) false (currentUrl f)
                       (closurePdfUrl f) (inFlight f)]> (fetches s))
      by (intros [u|]; reflexivity).
    split; [|split].
    + intros j g. rewrite Hfetch. intros Hg Hin.
      apply list_lookup_insert_Some in Hg as [(-> & <- & _)|(Hne & Hg)].
      * apply (Hfl _ _ Hf Hin).
      * apply (Hfl _ _ Hg Hin).
    + intros j g. rewrite Hfetch. intros Hg.
      apply list_lookup_insert_Some in Hg as [(-> & <- & _)|(Hne & Hg)].
      * reflexivity.
      * destruct (isMounted g) eqn:Hm; [|reflexivity].
        specialize (Hmo _ _ Hg Hm). congruence.
    + unfold held in Hlive. rewrite Hc, Hf in Hlive.
      destruct (currentUrl f) as [u|]; cbn [revokeIf revoke setFetch live];
        rewrite Hlive; [|reflexivity].
      cbn. now rewrite decide_False by (intros H; now apply H).
  - split; [exact Hfl|]. split.
    + intros j g Hg. destruct (isMounted g) eqn:Hm; [|reflexivity].
      specialize (Hmo _ _ Hg Hm). congruence.
    + unfold held in Hlive. now rewrite Hc, Hf in Hlive.
Qed.

(** Starting a run on a state without mounted runs and without live
    URLs gives a consistent state without live URLs. *)
Lemma runEffect_consistent (p : jsstring) (s : State) :
  (forall j f, fetches s !! j = Some f -> inFlight f = true ->
               currentUrl f = None) ->
  (forall j f, fetches s !! j = Some f -> isMounted f = false) ->
  live s = [] ->
  consistent (runEffect p s) /\ live (runEffect p s) = [].
Proof.
  intros Hfl Hmo Hlive.
  assert (Hnew : forall b j f,
             (fetches s ++ [mkFetch p true None (pdfUrl s) b]) !! j = Some f ->
             fetches s !! j = Some f \/
             (j = length (fetches s) /\ f = mkFetch p true None (pdfUrl s) b)).
  { intros b j f H. apply lookup_app_Some in H as [H|[Hge H]]; [now left|].
    right. destruct (j - length (fetches s))%nat as [|k] eqn:E;
      [|now rewrite lookup_cons, lookup_nil in H].
    cbn in H. split; [lia | congruence]. }
  assert (Hheld : forall b, 
             match (fetches s ++ [mkFetch p true None (pdfUrl s) b])
                   !! length (fetches s) with
             | Some f => match currentUrl f with Some u => [u] | None => [] end
             | None => []
             end = ([] : list Url)).
  { intros b. rewrite list_lookup_middle by reflexivity. reflexivity. }
  unfold runEffect. destruct (truthy p).
  - split; [|exact Hlive]. repeat split; cbn [fetches current live].
    + intros j f H Hin. destruct (Hnew _ _ _ H) as [H'|[_ ->]];
        [exact (Hfl _ _ H' Hin) | reflexivity].
    + intros j f H Hm. destruct (Hnew _ _ _ H) as [H'|[-> _]];
        [|reflexivity]. rewrite (Hmo _ _ H') in Hm. discriminate.
    + unfold held. cbn [current fetches]. now rewrite Hheld.
  - split; [|exact Hlive]. repeat split; cbn [fetches current live].
    + intros j f H Hin. destruct (Hnew _ _ _ H) as [H'|[_ ->]];
        [exact (Hfl _ _ H' Hin) | reflexivity].
    + intros j f H Hm. destruct (Hnew _ _ _ H) as [H'|[-> _]];
        [|reflexivity]. rewrite (Hmo _ _ H') in Hm. discriminate.
    + unfold held. cbn [current fetches]. now rewrite Hheld.
Qed.

Lemma consistent_unmounted (s : State) :
  consistent s -> current s = None ->
  (forall j f, fetches s !! j = Some f -> isMounted f = false) /\ live s = [].
Proof.
  intros (_ & Hmo & Hlive) Hc. split.
  - intros j f Hf. destruct (isMounted f) eqn:Hm; [|reflexivity].
    specialize (Hmo _ _ Hf Hm). congruence.
  - unfold held in Hlive. now rewrite Hc in Hlive.
Qed.

Lemma consistent_ext (s s' : State) :
  fetches s' = fetches s -> current s' = current s -> live s' = live s ->
  consistent s -> consistent s'.
Proof.
  unfold consistent, held. intros -> -> ->. auto.
Qed.

(** Marking the request of a run as answered keeps the state consistent. *)
Lemma answered_consistent (s : State) (i : nat) (f : Fetch) :
  consistent s ->
  fetches s !! i = Some f ->
  consistent
    (setFetch i
       (mkFetch (pdfId f) (isMounted f) (currentUrl f) (closurePdfUrl f) false)
       s).
Proof.
  intros (Hfl & Hmo & Hlive) Hf. split; [|split]; cbn [setFetch fetches current live].
  - intros j g Hg Hin.
    apply list_lookup_insert_Some in Hg as [(-> & <- & _)|(Hne & Hg)];
      [discriminate Hin | exact (Hfl _ _ Hg Hin)].
  - intros j g Hg Hm.
    apply list_lookup_insert_Some in Hg as [(-> & <- & _)|(Hne & Hg)];
      [exact (Hmo _ _ Hf Hm) | exact (Hmo _ _ Hg Hm)].
  - rewrite Hlive. unfold held. cbn [setFetch fetches current].
    destruct (current s) as [c|]; [|reflexivity].
    destruct (decide (i = c)) as [->|Hne].
    + rewrite Hf, list_lookup_insert_eq by (eapply lookup_lt_Some, Hf).
      reflexivity.
    + now rewrite list_lookup_insert_ne.
Qed.

Lemma settle_consistent (i : nat) (r : FetchResult) (s : State) :
  consistent s -> consistent (settle SessionChat i r s).
Proof.
  intros Hs. unfold settle.
  destruct (fetches s !! i) as [f|] eqn:Hf; [|exact Hs].
  destruct (inFlight f) eqn:Hin; [|exact Hs].
  pose proof (answered_consistent s i f Hs Hf) as Hs1.
  set (f0 := mkFetch (pdfId f) (isMounted f) (currentUrl f) (closurePdfUrl f)
               false) in *.
  set (s1 := setFetch i f0 s) in *.
  unfold afterAwait. destruct r as [err|[]].
  - refine (consistent_ext s1 _ _ _ _ Hs1); reflexivity.
  - cbn [isMounted f0]. destruct (isMounted f) eqn:Hm; cbn [negb]; [|exact Hs1].
    destruct Hs as (Hfl & Hmo & Hlive).
    assert (Hc : current s = Some i) by exact (Hmo _ _ Hf Hm).
    assert (Hu : currentUrl f = None) by exact (Hfl _ _ Hf Hin).
    assert (Hl : live s = []).
    { rewrite Hlive. unfold held. now rewrite Hc, Hf, Hu. }
    assert (Hlen : (i < length (fetches s))%nat) by (eapply lookup_lt_Some, Hf).
    split; [|split]; subst s1; cbn [setFetch fetches current live].
    + intros j g Hg Hin'.
      apply list_lookup_insert_Some in Hg as [(-> & <- & _)|(Hne & Hg)];
        [discriminate Hin'|].
      apply list_lookup_insert_Some in Hg as [(-> & <- & _)|(_ & Hg)];
        [discriminate Hin' | exact (Hfl _ _ Hg Hin')].
    + intros j g Hg Hm'.
      apply list_lookup_insert_Some in Hg as [(-> & <- & _)|(Hne & Hg)];
        [exact Hc|].
      apply list_lookup_insert_Some in Hg as [(-> & <- & _)|(_ & Hg)];
        [exact Hc | exact (Hmo _ _ Hg Hm')].
    + unfold held. cbn [setFetch fetches current]. rewrite Hc, Hl.
      rewrite list_lookup_insert_eq by (now rewrite length_insert).
      reflexivity.
Qed.

Lemma render_consistent (p : jsstring) (c : bool) (s : State) :
  consistent s -> consistent (render SessionChat p c s).
Proof.
  intros Hs. unfold render. destruct (current s) as [i|] eqn:Hc.
  - destruct (fetches s !! i) as [f|] eqn:Hf.
    + destruct (negb (bool_decide (pdfId f = p)) || c); [|exact Hs].
      destruct (cleanup_current_releases s i Hs Hc) as (H1 & H2 & H3).
      apply (runEffect_consistent p _ H1 H2 H3).
    + destruct (cleanup_current_releases s i Hs Hc) as (H1 & H2 & H3).
      unfold cleanup in H1, H2, H3. rewrite Hf in H1, H2, H3.
      apply (runEffect_consistent p _ H1 H2 H3).
  - destruct (consistent_unmounted s Hs Hc) as [H2 H3].
    destruct Hs as (H1 & _ & _).
    apply (runEffect_consistent p _ H1 H2 H3).
Qed.

Lemma unmount_consistent (s : State) :
  consistent s ->
  consistent (unmount SessionChat s) /\ live (unmount SessionChat s) = [].
Proof.
  intros Hs. unfold unmount. destruct (current s) as [i|] eqn:Hc.
  - destruct (cleanup_current_releases s i Hs Hc) as (H1 & H2 & H3).
    split; [|exact H3]. split; [|split]; cbn [fetches current live].
    + exact H1.
    + intros j f Hf Hm. rewrite (H2 _ _ Hf) in Hm. discriminate.
    + rewrite H3. reflexivity.
  - split; [exact Hs|]. now destruct (consistent_unmounted s Hs Hc).
Qed.

Lemma steps_consistent (acts : list Action) (s : State) :
  consistent s -> consistent (steps SessionChat acts s).
Proof.
  revert s. induction acts as [|a acts IH]; intros s Hs; [exact Hs|].
  unfold steps. cbn [fold_left]. apply IH.
  destruct a as [p c|i r|]; cbn [step].
  - now apply render_consistent.
  - now apply settle_consistent.
  - now apply unmount_consistent.
Qed.

(** X22.  In [part_001], whatever sequence of renders with changing
    document ids, completed requests and unmounts the page goes through,
    at most one object URL is live at any time, no URL is live when a new
    request starts, and none is live after the page is unmounted. *)
Lemma session_chat_at_most_one_url (acts : list Action) :
  (length (live (steps SessionChat acts init)) <= 1)%nat /\
  live (unmount SessionChat (steps SessionChat acts init)) = [] /\
  (forall (p : jsstring) (c : bool),
      render SessionChat p c (steps SessionChat acts init)
      <> steps SessionChat acts init ->
      live (render SessionChat p c (steps SessionChat acts init)) = []).
Proof.
  pose proof (steps_consistent acts init consistent_init) as Hs.
  split; [|split].
  - destruct Hs as (_ & _ & ->). apply held_at_most_one.
  - now apply unmount_consistent.
  - intros p c Hne. revert Hne. unfold render.
    destruct (current _) as [i|] eqn:Hc.
    + destruct (fetches _ !! i) as [f|] eqn:Hf.
      * destruct (negb (bool_decide (pdfId f = p)) || c); [|congruence].
        intros _.
        destruct (cleanup_current_releases _ i Hs Hc) as (H1 & H2 & H3).
        apply (runEffect_consistent p _ H1 H2 H3).
      * intros _.
        destruct (cleanup_current_releases _ i Hs Hc) as (H1 & H2 & H3).
        unfold cleanup in H1, H2, H3. rewrite Hf in H1, H2, H3.
        apply (runEffect_consistent p _ H1 H2 H3).
    + intros _. destruct (consistent_unmounted _ Hs Hc) as [H2 H3].
      destruct Hs as (H1 & _ & _).
      apply (runEffect_consistent p _ H1 H2 H3).
Qed.

(** C7 in [src/pages/Chat.tsx]: the cleanup reads the [pdfUrl] of the
    render that created the run, not the URL the run made.  After one
    load and the unmount the object URL is still live; after a change of
    document two object URLs are live at once, and the unmount then
    leaves the second one live. *)
Theorem pages_chat_leaks_object_urls :
  live (steps PagesChat
          [Render (lit "d1") false; Settle 0 (inr tt); Unmount] init)
  = [0%nat] /\
  live (steps PagesChat
          [Render (lit "d1") false; Settle 0 (inr tt);
           Render (lit "d2") false; Settle 1 (inr tt)] init)
  = [0%nat; 1%nat] /\
  live (steps PagesChat
          [Render (lit "d1") false; Settle 0 (inr tt);
           Render (lit "d2") false; Settle 1 (inr tt); Unmount] init)
  = [1%nat] /\
  live (steps SessionChat
          [Render (lit "d1") false; Settle 0 (inr tt);
           Render (lit "d2") false; Settle 1 (inr tt)] init)
  = [1%nat].
Proof. repeat split; reflexivity. Qed.

End PdfFacts.

(** * Further properties of the code *)

(** ** The resolver *)

Section ResolverMore.

Import Resolver.

(** The two shapes a resolved session key can have. *)
Lemma resolved_key_shape (r q : option jsstring) (k : jsstring) :
  sessionKey (resolve r q) = Some k ->
  Some k = r /\ startsWith k (lit "chat_") = true \/
  k = lit "chat_" ++ pdfIdOf q /\ truthy (pdfIdOf q) = true.
Proof.
  unfold resolve. cbn [sessionKey]. unfold effectiveChatId, concat.
  destruct r as [p|].
  - destruct (truthy p && startsWith p (lit "chat_")) eqn:Hp.
    + intros E. left. apply andb_prop in Hp as [_ Hp]. split; congruence.
    + destruct (truthy (pdfIdOf q)) eqn:Ht; [|discriminate].
      intros E. right. split; congruence.
  - destruct (truthy (pdfIdOf q)) eqn:Ht; [|discriminate].
    intros E. right. split; congruence.
Qed.

(** X1.  Every session key the page resolves starts with "chat_" (and so
    is not empty), whatever the route and query parameters are. *)
Theorem resolved_key_is_canonical (r q : option jsstring) (k : jsstring) :
  sessionKey (resolve r q) = Some k ->
  startsWith k (lit "chat_") = true /\ truthy k = true.
Proof.
  intros H.
  assert (Hp : startsWith k (lit "chat_") = true).
  { destruct (resolved_key_shape r q k H) as [[_ Hp]|[-> _]];
      [exact Hp | apply startsWith_app]. }
  split; [exact Hp | exact (startsWith_truthy k Hp)].
Qed.

Lemma resolved_key_is_canonical_witness :
  sessionKey (resolve None (Some (lit "doc1"))) = Some (lit "chat_doc1") /\
  startsWith (lit "chat_doc1") (lit "chat_") = true.
Proof.
  split; [reflexivity|].
  apply (resolved_key_is_canonical None (Some (lit "doc1")) (lit "chat_doc1")).
  reflexivity.
Defined.

(** X2.  A resolved session key is stable: put back as the route
    parameter it resolves to itself, whatever the query parameter then is
    (so the key a migration navigates to is the key the next render
    uses). *)
Theorem resolved_key_is_stable (r q q' : option jsstring) (k : jsstring) :
  sessionKey (resolve r q) = Some k ->
  sessionKey (resolve (Some k) q') = Some k.
Proof.
  intros H.
  assert (Hp : startsWith k (lit "chat_") = true).
  { destruct (resolved_key_shape r q k H) as [[_ Hp]|[-> _]];
      [exact Hp | apply startsWith_app]. }
  unfold resolve. cbn [sessionKey]. unfold effectiveChatId.
  now rewrite Hp, (startsWith_truthy k Hp).
Qed.

Lemma resolved_key_is_stable_witness :
  sessionKey (resolve (Some (lit "abc")) (Some (lit "doc1")))
  = Some (lit "chat_doc1") /\
  sessionKey (resolve (Some (lit "chat_doc1")) None) = Some (lit "chat_doc1").
Proof.
  split; [reflexivity|].
  apply (resolved_key_is_stable (Some (lit "abc")) (Some (lit "doc1")) None
           (lit "chat_doc1")).
  reflexivity.
Defined.

(** X3.  The page has no session key exactly when the route parameter is
    absent or does not start with "chat_" and, at the same time, the
    [?pdf=] value is absent or empty. *)
Theorem session_undefined_iff (r q : option jsstring) :
  sessionKey (resolve r q) = None <->
  match r with Some p => startsWith p (lit "chat_") = false | None => True end
  /\ match q with Some (_ :: _) => False | _ => True end.
Proof.
  unfold resolve. cbn [sessionKey]. unfold effectiveChatId.
  assert (Hq : truthy (pdfIdOf q) = false <->
               match q with Some (_ :: _) => False | _ => True end).
  { destruct q as [[|c d]|]; cbn; intuition discriminate. }
  destruct r as [p|].
  - destruct (startsWith p (lit "chat_")) eqn:Hp.
    + rewrite (startsWith_truthy p Hp). cbn. intuition discriminate.
    + rewrite andb_false_r. destruct (truthy (pdfIdOf q)) eqn:Ht.
      * split; [discriminate|]. intros [_ H]. apply Hq in H. discriminate.
      * split; [|reflexivity]. intros _. split; [reflexivity|now apply Hq].
  - destruct (truthy (pdfIdOf q)) eqn:Ht.
    + split; [discriminate|]. intros [_ H]. apply Hq in H. discriminate.
    + split; [|reflexivity]. intros _. split; [exact I|now apply Hq].
Qed.

End ResolverMore.

(** ** The messages of a loaded history *)

Section HistoryMessages.

Import History.

(** The array [historyMessages]: per interaction the question and then
    its answer. *)
Lemma historyMessages_pairs (idx : Z) (its : list ChatInteraction) :
  map (fun m => (role m, content m, timestamp m)) (historyMessages idx its)
  = flat_map (fun it => [(user, question it, asked_at it);
                         (assistant, answer it, asked_at it)]) its /\
  length (historyMessages idx its) = (2 * length its)%nat.
Proof.
  revert idx. induction its as [|it rest IH]; intros idx.
  - split; reflexivity.
  - destruct (IH (idx + 1)) as [E L]. split.
    + cbn [historyMessages map flat_map app role content timestamp].
      now rewrite E.
    + cbn [historyMessages length]. rewrite L. lia.
Qed.

(** X4.  In both variants, when the history request of the mounted run
    comes back with at least one interaction, the message log is
    replaced, whatever it held before (messages sent in the meantime
    included), by the interactions in the order the server sent them,
    each as the question (a user message) directly followed by its
    answer (an assistant message), both stamped with the time the
    question was asked: two messages per interaction and nothing else. *)
Theorem history_is_question_answer_pairs
    (v : Variant) (s : State) (i : nat) (l : Load)
    (its : list ChatInteraction) :
  loads s !! i = Some l ->
  inFlight l = true ->
  isMounted l = true ->
  its <> [] ->
  map (fun m => (role m, content m, timestamp m))
    (messages (settle v i (inr its) s))
  = flat_map (fun it => [(user, question it, asked_at it);
                         (assistant, answer it, asked_at it)]) its /\
  length (messages (settle v i (inr its) s)) = (2 * length its)%nat.
Proof.
  intros Hl Hf Hm Hne. unfold settle. rewrite Hl, Hf, Hm.
  cbn [afterAwait negb messages].
  assert (E : loaded v its = historyMessages 0 its).
  { unfold loaded. destruct v; [|reflexivity].
    destruct its as [|it rest]; [contradiction|reflexivity]. }
  rewrite E. apply historyMessages_pairs.
Qed.

(** Every id of [historyMessages idx its] is an index from [idx] on,
    followed by "-q" or "-a". *)
Lemma history_id_form (idx : Z) (its : list ChatInteraction) (x : jsstring) :
  In x (map id (historyMessages idx its)) ->
  exists j, idx <= j /\
            (x = toString j ++ lit "-q" \/ x = toString j ++ lit "-a").
Proof.
  revert idx. induction its as [|it rest IH]; intros idx H; [destruct H|].
  cbn [historyMessages map id In] in H.
  destruct H as [<-|[<-|H]].
  - exists idx. split; [lia | now left].
  - exists idx. split; [lia | now right].
  - destruct (IH _ H) as (j & Hj & E). exists j. split; [lia | exact E].
Qed.

Lemma indexed_id_inj (i j : Z) (s t : jsstring) :
  length s = length t ->
  toString i ++ s = toString j ++ t -> i = j /\ s = t.
Proof.
  intros L E. apply app_inj_2 in E as [E ->]; [|exact L].
  split; [exact (toString_inj _ _ E) | reflexivity].
Qed.

(** X5.  The ids of a loaded history are pairwise distinct, however many
    interactions it has. *)
Theorem history_ids_distinct (its : list ChatInteraction) :
  List.NoDup (map id (historyMessages 0 its)).
Proof.
  generalize 0 as idx. induction its as [|it rest IH]; intros idx.
  - constructor.
  - cbn [historyMessages map id].
    assert (Hfresh : forall s, s = lit "-q" \/ s = lit "-a" ->
              ~ In (toString idx ++ s)
                  (map id (historyMessages (idx + 1) rest))).
    { intros s Hs Hin. destruct (history_id_form _ _ _ Hin) as (j & Hj & E).
      assert (L : forall t, t = lit "-q" \/ t = lit "-a" ->
                            length s = length t).
      { intros t [-> | ->]; destruct Hs as [-> | ->]; reflexivity. }
      destruct E as [E|E]; apply indexed_id_inj in E as [E _]; auto; lia. }
    apply List.NoDup_cons; [|apply List.NoDup_cons].
    + intros [E|Hin].
      * apply indexed_id_inj in E as [_ E]; [discriminate E | reflexivity].
      * exact (Hfresh _ (or_introl eq_refl) Hin).
    + exact (Hfresh _ (or_intror eq_refl)).
    + apply IH.
Qed.

(** The decimal form of an integer consists of digits and, in front of a
    negative one, the minus sign. *)
Lemma toString_digits (z : Z) :
  Forall (fun c => c = 45 \/ 48 <= c <= 57)%N (toString z).
Proof.
  unfold toString, lit.
  assert (U : forall d, Forall (fun c => c = 45 \/ 48 <= c <= 57)%N
                (map N_of_ascii (list_ascii_of_string (NilEmpty.string_of_uint d)))).
  { induction d; cbn [NilEmpty.string_of_uint list_ascii_of_string map];
      constructor; auto; right; cbn; lia. }
  destruct (Z.to_int z) as [d|d]; cbn [NilEmpty.string_of_int].
  - apply U.
  - cbn [list_ascii_of_string map]. constructor; [left; reflexivity | apply U].
Qed.

(** X6.  The ids the send flow gives (decimal clock readings, for the
    user message, the reply and the failure placeholder) never equal the
    id of a message a history load puts into the log: neither an indexed
    history id nor "welcome". *)
Theorem sent_ids_differ_from_history_ids
    (v : Variant) (its : list ChatInteraction) (text : jsstring) (z : Z) :
  ~ In (toString z) (map id (loaded v its)) /\
  toString z <> id (welcome text).
Proof.
  assert (Hw : toString z <> lit "welcome").
  { intros E. pose proof (toString_digits z) as F. rewrite E in F.
    apply Forall_inv in F. cbn in F. lia. }
  assert (Hh : ~ In (toString z) (map id (historyMessages 0 its))).
  { intros Hin. destruct (history_id_form _ _ _ Hin) as (j & _ & E).
    pose proof (toString_digits z) as F.
    assert (Hq : forall s, (s = 113 \/ s = 97)%N ->
                 toString z = toString j ++ [45%N; s] -> False).
    { intros s Hs E'. rewrite E' in F. apply Forall_app in F as [_ F].
      apply Forall_inv_tail, Forall_inv in F. lia. }
    destruct E as [E|E]; [apply (Hq 113%N) | apply (Hq 97%N)]; auto. }
  split; [|exact Hw].
  unfold loaded. destruct v; [|exact Hh].
  destruct (historyMessages 0 its) eqn:E; [|exact Hh].
  cbn. intros [H|[]]. now apply Hw.
Qed.

End HistoryMessages.

(** ** The loading flag of the history *)

Section HistoryLoading.

Import History.

Variable v : Variant.

Lemma coherent_init : coherent init.
Proof.
  split; [intros j l H; discriminate H | intros i H; discriminate H].
Qed.

(** Starting a run when no run is mounted gives a coherent state. *)
Lemma runEffect_coherent (k : option jsstring) (s : State) :
  (forall j l, loads s !! j = Some l -> isMounted l = false) ->
  coherent (runEffect v k s).
Proof.
  intros Hun.
  assert (Hnew : forall (x : Load) (st : State),
             loads st = loads s ++ [x] ->
             current st = Some (length (loads s)) ->
             isMounted x = true ->
             (truthy_opt (key x) = true -> isLoadingHistory st = inFlight x) ->
             (truthy_opt (key x) = false -> inFlight x = false) ->
             coherent st).
  { intros x st Hl Hc Hm Ht Hf. split.
    - intros j l. rewrite Hl, Hc. intros Hj Hmj.
      apply lookup_app_Some in Hj as [Hj|[Hge Hj]].
      + rewrite (Hun _ _ Hj) in Hmj. discriminate.
      + destruct (j - length (loads s))%nat as [|d] eqn:E;
          [|now rewrite lookup_cons, lookup_nil in Hj].
        f_equal. lia.
    - intros i. rewrite Hc, Hl. intros [= <-]. exists x.
      rewrite list_lookup_middle by reflexivity. auto. }
  unfold runEffect. destruct (truthy_opt k) eqn:Hk.
  - apply (Hnew (mkLoad k true true)); cbn; try reflexivity;
      intros; congruence.
  - destruct v; apply (Hnew (mkLoad k true false)); cbn; try reflexivity;
      intros; congruence.
Qed.

Lemma cleanup_unmounts_all (i : nat) (s : State) :
  coherent s -> current s = Some i ->
  forall j l, loads (cleanup i s) !! j = Some l -> isMounted l = false.
Proof.
  intros [H1 H2] Hc j l. unfold cleanup.
  destruct (H2 _ Hc) as (li & Hli & _). rewrite Hli. cbn [setLoad loads].
  intros Hj.
  apply list_lookup_insert_Some in Hj as [(-> & <- & _)|(Hne & Hj)];
    [reflexivity|].
  destruct (isMounted l) eqn:Hm; [|reflexivity].
  specialize (H1 _ _ Hj Hm). congruence.
Qed.

Lemma unmounted_when_idle (s : State) :
  coherent s -> current s = None ->
  forall j l, loads s !! j = Some l -> isMounted l = false.
Proof.
  intros [H1 _] Hc j l Hj. destruct (isMounted l) eqn:Hm; [|reflexivity].
  specialize (H1 _ _ Hj Hm). congruence.
Qed.

Lemma settle_coherent (j : nat) (r : FetchResult) (s : State) :
  coherent s -> coherent (settle v j r s).
Proof.
  intros Hs. pose proof Hs as [H1 H2]. unfold settle.
  destruct (loads s !! j) as [lj|] eqn:Hj; [|exact Hs].
  destruct (inFlight lj) eqn:Hin; [|exact Hs].
  assert (Hlen : (j < length (loads s))%nat) by (eapply lookup_lt_Some, Hj).
  unfold afterAwait. destruct (isMounted lj) eqn:Hm; cbn [negb].
  - pose proof (H1 _ _ Hj Hm) as Hc.
    assert (Hgoal : forall ms e,
               coherent (mkState ms false e (current s)
                           (<[j := mkLoad (key lj) true false]> (loads s)))).
    { intros ms e. split; cbn [loads current isLoadingHistory].
      - intros j' l Hl Hml.
        apply list_lookup_insert_Some in Hl as [(-> & <- & _)|(Hne & Hl)];
          [exact Hc | exact (H1 _ _ Hl Hml)].
      - intros i Hi. rewrite Hc in Hi. injection Hi as <-.
        eexists. rewrite list_lookup_insert_eq by exact Hlen.
        split; [reflexivity|]. cbn. auto. }
    destruct r; apply Hgoal.
  - split; cbn [setLoad loads current isLoadingHistory].
    + intros j' l Hl Hml.
      apply list_lookup_insert_Some in Hl as [(-> & <- & _)|(Hne & Hl)];
        [discriminate Hml | exact (H1 _ _ Hl Hml)].
    + intros i Hi. destruct (H2 _ Hi) as (l & Hl & Hml & Ht & Hf).
      assert (Hne : j <> i) by (intros ->; congruence).
      exists l. rewrite list_lookup_insert_ne by exact Hne. auto.
Qed.

Lemma step_coherent (a : Action) (s : State) :
  coherent s -> coherent (step v a s).
Proof.
  intros Hs. destruct a as [k|j r|]; cbn [step].
  - unfold render. destruct (current s) as [i|] eqn:Hc.
    + destruct (loads s !! i) as [l|] eqn:Hl.
      * destruct (bool_decide (key l = k)); [exact Hs|].
        apply runEffect_coherent, (cleanup_unmounts_all i s Hs Hc).
      * destruct Hs as [_ H2]. destruct (H2 _ Hc) as (l & Hl' & _). congruence.
    + apply runEffect_coherent, (unmounted_when_idle s Hs Hc).
  - now apply settle_coherent.
  - unfold unmount. destruct (current s) as [i|] eqn:Hc; [|exact Hs].
    split; cbn [loads current].
    + intros j l Hl Hm.
      rewrite (cleanup_unmounts_all i s Hs Hc _ _ Hl) in Hm. discriminate.
    + intros i' H. discriminate H.
Qed.

Lemma steps_coherent (acts : list Action) (s : State) :
  coherent s -> coherent (steps v acts s).
Proof.
  revert s. induction acts as [|a acts IH]; intros s Hs; [exact Hs|].
  unfold steps. cbn [fold_left]. apply IH, step_coherent, Hs.
Qed.

(** X7.  Whatever renders, completed requests and unmounts the page has
    gone through since it was mounted: while a session with a key is
    active, the loading flag (which makes the pane show "Loading chat
    history..." instead of the messages) is on exactly as long as the
    request of the current run is unanswered. *)
Theorem loading_flag_tracks_current_request
    (acts : list Action) (i : nat) (l : Load) :
  current (steps v acts init) = Some i ->
  loads (steps v acts init) !! i = Some l ->
  truthy_opt (key l) = true ->
  isLoadingHistory (steps v acts init) = inFlight l.
Proof.
  intros Hc Hl Hk.
  destruct (steps_coherent acts init coherent_init) as [_ H2].
  destruct (H2 _ Hc) as (l' & Hl' & _ & Ht & _).
  assert (l' = l) by congruence. subst l'. exact (Ht Hk).
Qed.

(** X9.  In both variants, when the history request of the mounted run
    is answered with a status that is not 2xx, the pane shows the
    variant's greeting as the only message, the error line reads "Failed
    to fetch chat history" whatever the status and the body were, and
    the loading flag is off. *)
Theorem history_http_failure_is_shown
    (s : State) (i : nat) (l : Load)
    (body : JsError + list ChatInteraction) :
  loads s !! i = Some l ->
  inFlight l = true ->
  isMounted l = true ->
  view (settle v i (Api.getChatHistory (Api.Responded false body)) s)
  = ([welcome (failureText v)], false, lit "Failed to fetch chat history").
Proof.
  intros Hl Hf Hm. unfold settle. rewrite Hl, Hf, Hm. reflexivity.
Qed.

End HistoryLoading.

Lemma loading_flag_tracks_current_request_witness :
  History.isLoadingHistory
    (History.steps SessionChat [History.Render (Some (lit "chat_a"))]
       History.init)
  = true.
Proof.
  apply (loading_flag_tracks_current_request SessionChat
           [History.Render (Some (lit "chat_a"))] 0%nat
           (History.mkLoad (Some (lit "chat_a")) true true));
    reflexivity.
Defined.

Lemma history_http_failure_is_shown_witness :
  History.view
    (History.settle PagesChat 0
       (Api.getChatHistory (Api.Responded false (inr [])))
       (History.render PagesChat (Some (lit "d1")) History.init))
  = ([History.welcome (History.failureText PagesChat)], false,
     lit "Failed to fetch chat history").
Proof.
  apply (history_http_failure_is_shown PagesChat
           (History.render PagesChat (Some (lit "d1")) History.init) 0%nat
           (History.mkLoad (Some (lit "d1")) true true) (inr []));
    reflexivity.
Defined.

Lemma session_chat_empty_history_distinct_witness :
  History.messages
    (History.settle SessionChat 0 (inr [])
       (History.render SessionChat (Some (lit "chat_a")) History.init))
  = [History.welcome History.emptyHistoryText].
Proof.
  apply (session_chat_empty_history_distinct
           (History.render SessionChat (Some (lit "chat_a")) History.init)
           0%nat (History.mkLoad (Some (lit "chat_a")) true true)
           (mkError None (lit "")));
    reflexivity.
Defined.

(** ** The outcomes of a dispatch *)

Section DispatchOutcomes.

Import Send.

Lemma toasts_app (l1 l2 : list Event) :
  toasts (l1 ++ l2) = toasts l1 ++ toasts l2.
Proof. apply flat_map_app. Qed.

Lemma opt_or_else_truthy (a : option jsstring) (b : jsstring) :
  truthy b = true -> truthy (opt_or_else a b) = true.
Proof.
  intros Hb. destruct a as [s|]; [|exact Hb].
  unfold opt_or_else, or_else. destruct (truthy s) eqn:Hs; [exact Hs | exact Hb].
Qed.

Variable backend : jsstring -> jsstring -> AskResult.
Variable clock : nat -> Z.
Variables (n : nat) (pdfId : jsstring) (um : Message) (w : World).

(** The four ways a dispatch with a session key can go. *)
Lemma dispatch_outcomes (chat : jsstring) :
  truthy chat = true ->
  (exists res,
      dispatch backend clock n (Some chat) pdfId um w =
        appendMessage (aiResp (clock (S (S n))) 1 res)
          (emit (EvAsk chat (content um)) w)) \/
  (exists err,
      dispatch backend clock n (Some chat) pdfId um w =
        appendMessage (failedResp (clock (S (S n))) 4)
          (emit (EvToast (serverError err))
             (emit (EvAsk chat (content um)) w))) \/
  (exists res2,
      dispatch backend clock n (Some chat) pdfId um w =
        navigateTo (lit "chat_" ++ pdfId) pdfId
          (appendMessage (aiResp (clock (S (S (S (S n))))) 2 res2)
             (emit (EvAsk (lit "chat_" ++ pdfId) (content um))
                (emit (EvAsk chat (content um)) w)))) \/
  (exists err2,
      dispatch backend clock n (Some chat) pdfId um w =
        appendMessage (failedResp (clock (S (S (S (S n))))) 3)
          (emit (EvToast (serverError err2))
             (emit (EvAsk (lit "chat_" ++ pdfId) (content um))
                (emit (EvAsk chat (content um)) w)))).
Proof.
  intros Ht.
  destruct (backend chat (content um)) as [err|res] eqn:Hb.
  2:{ left. exists res. now apply dispatch_primary_ok. }
  destruct (fallbackChat pdfId) as [alt|] eqn:Hf.
  2:{ right. left. exists err. apply dispatch_no_fallback; auto. }
  destruct (decide (alt = chat)) as [->|Hne].
  { right. left. exists err. apply dispatch_no_fallback; auto. }
  rewrite (dispatch_fallback _ _ _ _ _ _ _ _ _ Ht Hb Hf Hne).
  destruct (fallbackChat_some _ _ Hf) as (-> & _ & _).
  destruct (backend (lit "chat_" ++ pdfId) (content um)) as [err2|res2].
  - right. right. right. now exists err2.
  - right. right. left. now exists res2.
Qed.

(** X10.  A question dispatched with a session key is never dropped
    silently: whatever the backend does, the dispatch adds exactly one
    message to the log, an assistant message with non-empty content.
    Either it is a reply and no notification is shown, or it is the
    failure placeholder and exactly one "Server error" notification is
    shown. *)
Theorem dispatch_always_answers (chat : jsstring) :
  truthy chat = true ->
  exists (m : Message) (l : list Event),
    messages (dispatch backend clock n (Some chat) pdfId um w)
    = messages w ++ [m] /\
    log (dispatch backend clock n (Some chat) pdfId um w) = log w ++ l /\
    role m = assistant /\
    truthy (content m) = true /\
    ((toasts l = [] /\ exists t off res, m = aiResp t off res) \/
     (content m = failedText /\ exists err, toasts l = [serverError err])).
Proof.
  intros Ht.
  destruct (dispatch_outcomes chat Ht) as [[res ->]|[[err ->]|[[res2 ->]|[err2 ->]]]];
    cbn [navigateTo appendMessage emit messages log];
    eexists; eexists; (split; [reflexivity|]);
    (split; [rewrite <- ?app_assoc; reflexivity|]);
    (split; [reflexivity|]).
  - split; [now apply opt_or_else_truthy|]. left. split; [reflexivity|eauto].
  - split; [reflexivity|]. right. split; [reflexivity|eauto].
  - split; [now apply opt_or_else_truthy|]. left. split; [reflexivity|eauto].
  - split; [reflexivity|]. right. split; [reflexivity|eauto].
Qed.

End DispatchOutcomes.

(** X11.  Every request a dispatch issues carries the text of the user
    message exactly as it was typed (the guard trims, the request does
    not), and is addressed either to the session key of the render or to
    "chat_" + documentKey; there are at most two of them. *)
Theorem requests_carry_the_question
    (backend : jsstring -> jsstring -> AskResult) (clock : nat -> Z)
    (n : nat) (eff : option jsstring) (pdfId : jsstring) (now : Z)
    (typed : jsstring) (w : Send.World) :
  exists l : list Send.Event,
    Send.log (Send.dispatch backend clock n eff pdfId
                (Send.userMessage now typed) w)
    = Send.log w ++ l /\
    (length (Send.asks l) <= 2)%nat /\
    Forall (fun cq => snd cq = typed /\
                      (eff = Some (fst cq) \/ fst cq = lit "chat_" ++ pdfId))
           (Send.asks l).
Proof.
  destruct eff as [chat|].
  2:{ rewrite dispatch_no_session by reflexivity.
      eexists. split; [reflexivity|]. cbn. split; [lia | constructor]. }
  destruct (truthy chat) eqn:Ht.
  2:{ rewrite dispatch_no_session by exact Ht.
      eexists. split; [reflexivity|]. cbn. split; [lia | constructor]. }
  destruct (dispatch_outcomes backend clock n pdfId
              (Send.userMessage now typed) w chat Ht)
    as [[res ->]|[[err ->]|[[res2 ->]|[err2 ->]]]];
    cbn [Send.navigateTo Send.appendMessage Send.emit Send.log];
    eexists; (split; [rewrite <- ?app_assoc; reflexivity|]);
    cbn [Send.asks flat_map app length]; (split; [lia|]);
    repeat (apply List.Forall_cons;
            [split; [reflexivity
                    | first [left; reflexivity | right; reflexivity]]|]);
    apply List.Forall_nil.
Qed.


Lemma dispatch_always_answers_witness :
  exists (m : Message) (l : list Send.Event),
    Send.messages
      (Send.dispatch (fun _ _ => inr (mkAnswer None)) (fun _ => 1000) 0
         (Some (lit "chat_d1")) (lit "d1") (Send.userMessage 7 (lit "hi"))
         (Send.mount None (Some (lit "d1"))))
    = [] ++ [m] /\
    Send.log
      (Send.dispatch (fun _ _ => inr (mkAnswer None)) (fun _ => 1000) 0
         (Some (lit "chat_d1")) (lit "d1") (Send.userMessage 7 (lit "hi"))
         (Send.mount None (Some (lit "d1"))))
    = [] ++ l /\
    role m = assistant.
Proof.
  destruct (dispatch_always_answers (fun _ _ => inr (mkAnswer None))
              (fun _ => 1000) 0%nat (lit "d1") (Send.userMessage 7 (lit "hi"))
              (Send.mount None (Some (lit "d1"))) (lit "chat_d1") eq_refl)
    as (m & l & Hm & Hl & Hr & _).
  exists m, l. split; [exact Hm|]. split; [exact Hl | exact Hr].
Defined.

(** X12.  In [src/pages/Chat.tsx] a sent question leads to exactly one
    request, addressed to the route's document id (or, when that is the
    empty string, to "chat_" followed by the clock reading), and to
    exactly one new message, an assistant message with non-empty
    content; whatever the backend does, the page shows no notification
    and does not navigate. *)
Theorem pages_dispatch_one_request_one_answer
    (backend : jsstring -> jsstring -> AskResult) (clock : nat -> Z)
    (n : nat) (pdfId : jsstring) (um : Message) (w : Send.World) :
  exists m : Message,
    Send.messages (Send.run backend clock n (Send.askFlowPages pdfId um) w)
    = Send.messages w ++ [m] /\
    role m = assistant /\
    truthy (content m) = true /\
    Send.log (Send.run backend clock n (Send.askFlowPages pdfId um) w)
    = Send.log w
      ++ [Send.EvAsk
            (or_else pdfId (lit "chat_" ++ toString (clock (S n))))
            (content um)].
Proof.
  unfold Send.askFlowPages. cbn [Send.run].
  destruct (backend _ (content um)) as [err|res]; cbn [Send.run];
    eexists; (split; [reflexivity|]); (split; [reflexivity|]);
    (split; [|reflexivity]).
  - reflexivity.
  - now apply opt_or_else_truthy.
Qed.

(** X13.  When every request to [/ask_question/] is answered with a
    status that is not 2xx, the user sees exactly one notification,
    "Server error" with the text "Ask failed" whatever the status and
    the body were, and the failure placeholder as the only new message. *)
Theorem ask_http_failure_is_reported
    (http : jsstring -> jsstring -> Api.Fetched AskResponse)
    (clock : nat -> Z) (n : nat) (chat pdfId : jsstring) (um : Message)
    (w : Send.World) :
  truthy chat = true ->
  (forall c q, exists body, http c q = Api.Responded false body) ->
  exists l t off,
    Send.log (Send.dispatch (fun c q => Api.askQuestion (http c q)) clock n
                (Some chat) pdfId um w)
    = Send.log w ++ l /\
    Send.toasts l = [mkToast (lit "Server error") (lit "Ask failed") true] /\
    Send.messages (Send.dispatch (fun c q => Api.askQuestion (http c q)) clock n
                     (Some chat) pdfId um w)
    = Send.messages w ++ [Send.failedResp t off].
Proof.
  intros Ht Hhttp.
  set (backend := fun c q => Api.askQuestion (http c q)).
  assert (Hfail : forall c q, backend c q = inl (Api.newError "Ask failed")).
  { intros c q. unfold backend. destruct (Hhttp c q) as [body ->].
    reflexivity. }
  assert (Hno : Send.fallbackChat pdfId = None
                \/ Send.fallbackChat pdfId = Some chat ->
                exists l t off,
                  Send.log (Send.dispatch backend clock n (Some chat) pdfId um w)
                  = Send.log w ++ l /\
                  Send.toasts l
                  = [mkToast (lit "Server error") (lit "Ask failed") true] /\
                  Send.messages
                    (Send.dispatch backend clock n (Some chat) pdfId um w)
                  = Send.messages w ++ [Send.failedResp t off]).
  { intros Hf.
    rewrite (dispatch_no_fallback backend clock n pdfId um w chat _ Ht
               (Hfail _ _) Hf).
    cbn [Send.appendMessage Send.emit Send.log Send.messages].
    eexists; eexists; eexists.
    split; [rewrite <- app_assoc; reflexivity|]. split; reflexivity. }
  destruct (Send.fallbackChat pdfId) as [alt|] eqn:Hf; [|now apply Hno; left].
  destruct (decide (alt = chat)) as [->|Hne]; [now apply Hno; right|].
  rewrite (dispatch_fallback backend clock n pdfId um w chat alt _ Ht
             (Hfail _ _) Hf Hne), Hfail.
  cbn [Send.appendMessage Send.emit Send.log Send.messages].
  eexists; eexists; eexists.
  split; [rewrite <- !app_assoc; reflexivity|]. split; reflexivity.
Qed.

Lemma ask_http_failure_is_reported_witness :
  exists l t off,
    Send.log
      (Send.dispatch
         (fun c q => Api.askQuestion
                       (Api.Responded false (inr (mkAnswer (Some (lit "x"))))))
         (fun _ => 1000) 0 (Some (lit "chat_old")) (lit "d1")
         (Send.userMessage 7 (lit "hi")) (Send.mount None None))
    = [] ++ l /\
    Send.toasts l = [mkToast (lit "Server error") (lit "Ask failed") true] /\
    Send.messages
      (Send.dispatch
         (fun c q => Api.askQuestion
                       (Api.Responded false (inr (mkAnswer (Some (lit "x"))))))
         (fun _ => 1000) 0 (Some (lit "chat_old")) (lit "d1")
         (Send.userMessage 7 (lit "hi")) (Send.mount None None))
    = [] ++ [Send.failedResp t off].
Proof.
  apply (ask_http_failure_is_reported
           (fun _ _ => Api.Responded false (inr (mkAnswer (Some (lit "x")))))
           (fun _ => 1000) 0%nat (lit "chat_old") (lit "d1")
           (Send.userMessage 7 (lit "hi")) (Send.mount None None)).
  - reflexivity.
  - intros c q. eexists. reflexivity.
Defined.

(** ** A dispatch taken through the event loop *)

Section EventLoop.

Import Send.

Variable backend : jsstring -> jsstring -> AskResult.
Variable clock : nat -> Z.

(** The runs of a task do not look at the started dispatches. *)
Lemma advance_setPending (now : Z) (t : task) (p : list (option suspended))
    (w : World) :
  advance now t (setPending p w)
  = (setPending p (advance now t w).1, (advance now t w).2).
Proof.
  revert w. induction t as [|k IH|m k IH|t k IH|c q k IH|k IH|c q k IH];
    intros w; cbn [advance fst snd]; try reflexivity.
  - apply IH.
  - apply (IH (appendMessage m w)).
  - apply (IH (emit (EvToast t) w)).
  - apply (IH (navigateTo c q w)).
Qed.

Lemma advance_pending (now : Z) (t : task) (w : World) :
  pending (advance now t w).1 = pending w.
Proof.
  revert w. induction t as [|k IH|m k IH|t k IH|c q k IH|k IH|c q k IH];
    intros w; cbn [advance fst]; try reflexivity.
  - apply IH.
  - apply (IH (appendMessage m w)).
  - apply (IH (emit (EvToast t) w)).
  - apply (IH (navigateTo c q w)).
Qed.

Lemma run_setPending (n : nat) (t : task) (p : list (option suspended))
    (w : World) :
  run backend clock n (t) (setPending p w)
  = setPending p (run backend clock n t w).
Proof.
  revert n w. induction t as [|k IH|m k IH|t k IH|c q k IH|k IH|c q k IH];
    intros n w; cbn [run]; try reflexivity.
  - apply IH.
  - apply (IH n (appendMessage m w)).
  - apply (IH n (emit (EvToast t) w)).
  - apply (IH n (navigateTo c q w)).
  - apply IH.
  - apply (IH (backend c q) (S n) (emit (EvAsk c q) w)).
Qed.

(** Resuming slot [i] turn by turn does to the page what the isolated
    run of the task does. *)
Lemma drive_is_run (i : nat) (t : task) :
  forall (n : nat) (w : World),
    (i < length (pending w))%nat ->
    exists fuel, forall extra,
      visible
        (drive backend clock n (fuel + extra) i
           (setPending (<[i := (advance (clock n) t w).2]>
                          (pending (advance (clock n) t w).1))
              (advance (clock n) t w).1))
      = visible (run backend clock n t w).
Proof.
  induction t as [|k IH|m k IH|t k IH|c q k IH|k IH|c q k IH];
    intros n w Hi; cbn [advance run fst snd].
  - exists 0%nat. intros extra. destruct extra as [|e]; cbn [drive Nat.add];
      [reflexivity|].
    cbn [setPending pending]. now rewrite list_lookup_insert_eq by exact Hi.
  - apply (IH (clock n) n w Hi).
  - apply (IH n (appendMessage m w) Hi).
  - apply (IH n (emit (EvToast t) w) Hi).
  - apply (IH n (navigateTo c q w) Hi).
  - set (X := setPending (<[i := Some (OnImport k)]> (pending w)) w).
    assert (HX : (i < length (pending X))%nat)
      by (subst X; cbn [setPending pending]; now rewrite length_insert).
    destruct (IH (S n) X HX) as [fuel Hfuel].
    exists (S fuel). intros extra. cbn [Nat.add drive].
    assert (Hslot : pending X !! i = Some (Some (OnImport k))).
    { subst X. cbn [setPending pending].
      now rewrite list_lookup_insert_eq by exact Hi. }
    rewrite Hslot. unfold resume at 1. rewrite Hslot.
    specialize (Hfuel extra).
    destruct (advance (clock (S n)) k X) as [w' s] eqn:E.
    cbn [fst snd] in Hfuel. rewrite Hfuel.
    subst X. now rewrite run_setPending.
  - set (X := setPending (<[i := Some (OnAsk c q k)]> (pending w))
                (emit (EvAsk c q) w)).
    assert (HX : (i < length (pending X))%nat)
      by (subst X; cbn [setPending pending]; now rewrite length_insert).
    destruct (IH (backend c q) (S n) X HX) as [fuel Hfuel].
    exists (S fuel). intros extra.
    change (pending (emit (EvAsk c q) w)) with (pending w). fold X.
    cbn [Nat.add drive].
    assert (Hslot : pending X !! i = Some (Some (OnAsk c q k))).
    { subst X. cbn [setPending pending].
      now rewrite list_lookup_insert_eq by exact Hi. }
    rewrite Hslot. unfold resume at 1. rewrite Hslot.
    specialize (Hfuel extra).
    destruct (advance (clock (S n)) (k (backend c q)) X) as [w' s] eqn:E.
    cbn [fst snd] in Hfuel. rewrite Hfuel.
    subst X. now rewrite run_setPending.
Qed.

(** X14.  A click on Send with a non-blank input, followed by the turns
    of the event loop that resume the started dispatch with the answers
    of the backend, leaves the page (route, input field, message log,
    outward effects) exactly as the optimistic append followed by the
    isolated run of the dispatch does: after enough turns the dispatch
    has ended and further turns change nothing. *)
Theorem send_through_event_loop (v : Variant) (n : nat) (w : World) :
  truthy (trim (input w)) = true ->
  exists fuel, forall extra,
    visible
      (drive backend clock n (fuel + extra) (length (pending w))
         (handleSend v (clock n) w))
    = visible
        (run backend clock n
           (flowOf v w (userMessage (clock n) (input w)))
           (setInput (lit "")
              (appendMessage (userMessage (clock n) (input w)) w))).
Proof.
  intros Ht.
  set (um := userMessage (clock n) (input w)).
  set (w1 := setInput (lit "") (appendMessage um w)).
  set (t := flowOf v w um).
  set (i := length (pending w)).
  set (w1' := setPending (pending w1 ++ [None]) w1).
  assert (Hi : (i < length (pending w1'))%nat).
  { subst w1' w1 i. cbn [setPending setInput appendMessage pending].
    rewrite length_app. cbn. lia. }
  destruct (drive_is_run i t n w1' Hi) as [fuel Hfuel].
  exists fuel. intros extra. specialize (Hfuel extra).
  assert (Hs : handleSend v (clock n) w
               = setPending (<[i := (advance (clock n) t w1').2]>
                               (pending (advance (clock n) t w1').1))
                   (advance (clock n) t w1').1).
  { unfold handleSend. rewrite Ht. cbn [negb]. fold um w1 t.
    subst w1'. rewrite advance_setPending. cbn [fst snd].
    destruct (advance (clock n) t w1) as [w2 s] eqn:E. cbn [fst snd].
    assert (Hp : pending w2 = pending w1).
    { pose proof (advance_pending (clock n) t w1) as P.
      now rewrite E in P. }
    cbn [setPending pending]. rewrite Hp.
    assert (Hins : <[i := s]> (pending w1 ++ [None]) = pending w1 ++ [s]).
    { subst i w1. cbn [setInput appendMessage pending].
      rewrite insert_app_r_alt by lia. now rewrite Nat.sub_diag. }
    now rewrite Hins. }
  rewrite Hs, Hfuel. subst w1'. now rewrite run_setPending.
Qed.

End EventLoop.

Lemma send_through_event_loop_witness :
  exists fuel, forall extra,
    Send.visible
      (Send.drive (fun _ _ => inr (mkAnswer (Some (lit "42")))) (fun _ => 1000)
         0 (fuel + extra) 0
         (Send.handleSend SessionChat 1000
            (Send.setInput (lit "hi") (Send.mount None (Some (lit "d1"))))))
    = Send.visible
        (Send.run (fun _ _ => inr (mkAnswer (Some (lit "42")))) (fun _ => 1000)
           0
           (Send.flowOf SessionChat
              (Send.setInput (lit "hi") (Send.mount None (Some (lit "d1"))))
              (Send.userMessage 1000 (lit "hi")))
           (Send.setInput (lit "")
              (Send.appendMessage (Send.userMessage 1000 (lit "hi"))
                 (Send.setInput (lit "hi")
                    (Send.mount None (Some (lit "d1"))))))).
Proof.
  apply (send_through_event_loop
           (fun _ _ => inr (mkAnswer (Some (lit "42")))) (fun _ => 1000)
           SessionChat 0%nat
           (Send.setInput (lit "hi") (Send.mount None (Some (lit "d1"))))).
  reflexivity.
Defined.

(** ** The answer actions *)

Section ActionFacts.

Import Actions.

Lemma looksLikeHtml_brackets (s : jsstring) :
  looksLikeHtml s = true -> In 60%N s /\ In 62%N s.
Proof.
  induction s as [|c tl IH]; [discriminate|].
  destruct tl as [|d rest]; [discriminate|].
  cbn [looksLikeHtml]. intros H. apply orb_prop in H as [H|H].
  - apply andb_prop in H as [H H3]. apply andb_prop in H as [H1 _].
    apply N.eqb_eq in H1. subst c. split; [now left|].
    apply existsb_exists in H3 as (x & Hx & E). apply N.eqb_eq in E.
    subst x. right. right. exact Hx.
  - destruct (IH H) as [H1 H2]. split; right; assumption.
Qed.

Variable domText : jsstring -> jsstring.

(** X15.  A text without "<", or without ">", is plain text to
    [toPlainText]: it comes back unchanged, so copying an answer without
    markup offers the clipboard exactly the answer. *)
Theorem plain_text_passes_through (s : jsstring) :
  ~ In 60%N s \/ ~ In 62%N s ->
  toPlainText domText (Some s) = s.
Proof.
  intros H. unfold toPlainText.
  destruct (looksLikeHtml s) eqn:E; [|reflexivity].
  destruct (looksLikeHtml_brackets s E) as [H1 H2]. tauto.
Qed.

Variable b : Browser.

(** X16.  In [part_001], unless [execCommand] itself throws, the copy
    action always ends with the "Copied" notification, even when the
    clipboard API rejected the text and [execCommand] returned false;
    every text it offers to the clipboard is [toPlainText] of the
    content, and the slide state is untouched. *)
Theorem session_copy_always_reports_success
    (content : option jsstring) (s : Slide) :
  (forall err, execCommand b (toPlainText domText content) <> ExecThrows err) ->
  exists evs,
    handleAction SessionChat b domText (lit "copy") content s
    = (s, evs ++ [EvToast (note "Copied" "Answer copied to clipboard")]) /\
    Forall (fun e => e = EvWriteText (toPlainText domText content)
                     \/ e = EvExecCopy (toPlainText domText content)) evs.
Proof.
  intros Hex.
  change (handleAction SessionChat b domText (lit "copy") content s)
    with (let '(evs, ok) := copyToClipboard SessionChat b domText content in
          (s, evs ++
              [EvToast
                 (if ok then note "Copied" "Answer copied to clipboard"
                  else note "Copy failed" "Could not copy text.")])).
  unfold copyToClipboard.
  destruct (execCommand b (toPlainText domText content)) as [| |err] eqn:E;
    [| |now destruct (Hex err)];
    destruct (hasClipboardApi b);
    try destruct (writeText b (toPlainText domText content));
    cbn [fst snd]; eexists; (split; [reflexivity|]);
    repeat (apply List.Forall_cons; [auto|]); apply List.Forall_nil.
Qed.

(** X17.  In [src/pages/Chat.tsx] the copy action ends with "Copied"
    exactly when the clipboard API exists and took the text, or
    [execCommand] returned true; in every other case it ends with the
    "Copy failed" notification. *)
Theorem pages_copy_reports_failure
    (content : option jsstring) (s : Slide) :
  exists evs t,
    handleAction PagesChat b domText (lit "copy") content s
    = (s, evs ++ [EvToast t]) /\
    (t = note "Copied" "Answer copied to clipboard" \/
     t = note "Copy failed"
           "Could not copy text. Try selecting and copying manually.") /\
    (t = note "Copied" "Answer copied to clipboard" <->
     hasClipboardApi b = true /\ writeText b (toPlainText domText content) = true
     \/ execCommand b (toPlainText domText content) = ExecTrue).
Proof.
  change (handleAction PagesChat b domText (lit "copy") content s)
    with (let '(evs, ok) := copyToClipboard PagesChat b domText content in
          (s, evs ++
              [EvToast
                 (if ok then note "Copied" "Answer copied to clipboard"
                  else note "Copy failed"
                         "Could not copy text. Try selecting and copying manually.")])).
  unfold copyToClipboard.
  destruct (execCommand b (toPlainText domText content)) as [| |err] eqn:E;
    destruct (hasClipboardApi b);
    try destruct (writeText b (toPlainText domText content));
    cbn [fst snd]; eexists; eexists; (split; [reflexivity|]);
    (split; [auto|]);
    (split; [intros H; first [now right | now left | discriminate H]
            | intros [[H1 H2]|H]; first [reflexivity | discriminate]]).
Qed.

End ActionFacts.

Lemma plain_text_passes_through_witness :
  Actions.toPlainText (fun _ => lit "") (Some (lit "2 < 3")) = lit "2 < 3".
Proof.
  apply (plain_text_passes_through (fun _ => lit "") (lit "2 < 3")).
  right. cbn. intros H. repeat (destruct H as [H|H]; [discriminate H|]).
  exact H.
Defined.

Lemma session_copy_always_reports_success_witness :
  exists evs,
    Actions.handleAction SessionChat
      (Actions.mkBrowser true (fun _ => false) (fun _ => Actions.ExecFalse))
      (fun _ => lit "") (lit "copy") (Some (lit "hi"))
      (Actions.mkSlide (lit "") false)
    = (Actions.mkSlide (lit "") false,
       evs ++ [Actions.EvToast
                 (Actions.note "Copied" "Answer copied to clipboard")]) /\
    Forall (fun e => e = Actions.EvWriteText
                           (Actions.toPlainText (fun _ => lit "")
                              (Some (lit "hi")))
                     \/ e = Actions.EvExecCopy
                              (Actions.toPlainText (fun _ => lit "")
                                 (Some (lit "hi")))) evs.
Proof.
  apply (session_copy_always_reports_success (fun _ => lit "")
           (Actions.mkBrowser true (fun _ => false) (fun _ => Actions.ExecFalse))
           (Some (lit "hi")) (Actions.mkSlide (lit "") false)).
  intros err H. discriminate H.
Defined.

(** ** The dashboard *)

Section DashboardFacts.

Import Dashboard.

(** X18.  The upload started from the category dialog ends in exactly
    one of two ways.  Either a file was selected, the upload succeeded
    and the server named a chat id: then the page navigates once, to
    [/chat/<chat_id>?pdf=<pdf_id>], and shows no failure.  Or it does not
    navigate and shows exactly one "Upload Failed" notification.  The
    upload request is issued once when a file was selected and never
    otherwise, and the selected file is forgotten in every case. *)
Theorem upload_navigates_or_reports
    (uploadedFileName : jsstring) (selectedFile : option File)
    (upload : File -> JsError + Api.UploadResponse) :
  snd (handleCategorySelect uploadedFileName selectedFile upload) = None /\
  uploads (fst (handleCategorySelect uploadedFileName selectedFile upload))
  = match selectedFile with Some f => [f] | None => [] end /\
  ((exists f res c,
       selectedFile = Some f /\ upload f = inr res /\
       Api.up_chat_id res = Some c /\ truthy c = true /\
       navigations (fst (handleCategorySelect uploadedFileName selectedFile upload))
       = [lit "/chat/" ++ c ++ lit "?pdf=" ++ printed (Api.up_pdf_id res)] /\
       failures (fst (handleCategorySelect uploadedFileName selectedFile upload))
       = []) \/
   (navigations (fst (handleCategorySelect uploadedFileName selectedFile upload))
    = [] /\
    exists d,
      failures (fst (handleCategorySelect uploadedFileName selectedFile upload))
      = [mkToast (lit "Upload Failed") d true])).
Proof.
  unfold handleCategorySelect. cbn [fst snd].
  split; [reflexivity|].
  destruct selectedFile as [f|].
  2:{ split; [reflexivity|]. right. split; [reflexivity|]. eexists. reflexivity. }
  destruct (upload f) as [err|res] eqn:Hu.
  { split; [reflexivity|]. right. split; [reflexivity|]. eexists. reflexivity. }
  destruct (Api.up_chat_id res) as [c|] eqn:Hc.
  - cbn [truthy_opt]. destruct (truthy c) eqn:Ht.
    + split; [reflexivity|]. left. exists f, res, c.
      rewrite Hc. cbn [printed]. auto 10.
    + split; [reflexivity|]. right. split; [reflexivity|].
      eexists. reflexivity.
  - split; [reflexivity|]. right. split; [reflexivity|]. eexists. reflexivity.
Qed.

(** X19.  The dashboard shows one card per chat of the server's list, in
    the server's order and under the chat's id; a card always has a
    thumbnail to show, the placeholder when the server sent none or an
    empty one; and nothing is listed unless the request succeeded with a
    2xx status and a readable body. *)
Theorem cards_follow_chats (r : Api.Fetched (list Api.RawChat)) :
  match cardsOf r with
  | Some cards =>
      exists chats,
        r = Api.Responded true (inr chats) /\
        map id cards = map Api.raw_chat_id chats /\
        Forall (fun c => truthy (thumbnail c) = true) cards /\
        Forall2 (fun c card =>
                   thumbnail card
                   = match Api.raw_thumbnail_url c with
                     | Some (x :: u) => x :: u
                     | _ => lit "/placeholder.svg"
                     end) chats cards
  | None => forall chats, r <> Api.Responded true (inr chats)
  end.
Proof.
  unfold cardsOf, Api.getAllChats, Api.unwrap.
  destruct r as [err|[|] [err|chats]]; cbn [negb]; try (intros chats' H; discriminate H).
  exists chats. split; [reflexivity|].
  assert (Hth : forall c,
             thumbnail (toCard (Api.summarize c))
             = match Api.raw_thumbnail_url c with
               | Some (x :: u) => x :: u
               | _ => lit "/placeholder.svg"
               end).
  { intros c. unfold toCard, Api.summarize.
    cbn [thumbnail Api.thumbnail_url].
    destruct (Api.raw_thumbnail_url c) as [[|x u]|]; reflexivity. }
  split; [|split].
  - rewrite !map_map. reflexivity.
  - induction chats as [|c chats IH]; cbn [map]; constructor; [|exact IH].
    rewrite Hth. now destruct (Api.raw_thumbnail_url c) as [[|x u]|].
  - induction chats as [|c chats IH]; cbn [map]; constructor; [|exact IH].
    apply Hth.
Qed.

(** X20.  A card made from a chat whose id starts with "chat_" opens that
    chat: [handlePDFClick] builds the path [/chat/<chat_id>?pdf=<pdf_id>]
    (the shape the chat page itself navigates to), and with the card's
    id as route parameter and the card's document id as [?pdf=] value the
    chat page resolves the chat id as its session key and the server's
    document id (the empty string when the server sent none) as its
    document key. *)
Theorem card_opens_its_chat (c : Api.RawChat) :
  startsWith (Api.raw_chat_id c) (lit "chat_") = true ->
  handlePDFClick (id (toCard (Api.summarize c)))
    (pdfId (toCard (Api.summarize c)))
  = Send.chatPath (Api.raw_chat_id c)
      (opt_or_else (Api.raw_pdf_id c) (lit "")) /\
  Resolver.resolve (Some (id (toCard (Api.summarize c))))
    (Some (pdfId (toCard (Api.summarize c))))
  = Resolver.Resolved (Some (Api.raw_chat_id c))
      (opt_or_else (Api.raw_pdf_id c) (lit "")).
Proof.
  intros Hp. split; [reflexivity|].
  unfold toCard, Api.summarize. cbn [id pdfId Api.chat_id Api.pdf_id].
  unfold Resolver.resolve, Resolver.effectiveChatId.
  rewrite Hp, (startsWith_truthy _ Hp). cbn [andb]. f_equal.
  unfold Resolver.pdfIdOf, opt_or_else, or_else.
  destruct (Api.raw_pdf_id c) as [p|]; [|reflexivity].
  destruct (truthy p) eqn:Ht; [now rewrite Ht | reflexivity].
Qed.

End DashboardFacts.

Lemma card_opens_its_chat_witness :
  Resolver.resolve
    (Some (Dashboard.id
             (Dashboard.toCard
                (Api.summarize
                   (Api.mkRawChat (lit "chat_a1") (Some (lit "a1")) (lit "x.pdf")
                      (lit "t0") None None None)))))
    (Some (Dashboard.pdfId
             (Dashboard.toCard
                (Api.summarize
                   (Api.mkRawChat (lit "chat_a1") (Some (lit "a1")) (lit "x.pdf")
                      (lit "t0") None None None)))))
  = Resolver.Resolved (Some (lit "chat_a1")) (lit "a1").
Proof.
  apply (card_opens_its_chat
           (Api.mkRawChat (lit "chat_a1") (Some (lit "a1")) (lit "x.pdf")
              (lit "t0") None None None)).
  reflexivity.
Defined.

Lemma history_is_question_answer_pairs_witness :
  map (fun m => (role m, content m, timestamp m))
    (History.messages
       (History.settle SessionChat 0
          (inr [History.mkInteraction (lit "q") (lit "a") (lit "t")])
          (History.render SessionChat (Some (lit "chat_a")) History.init)))
  = [(user, lit "q", lit "t"); (assistant, lit "a", lit "t")].
Proof.
  apply (history_is_question_answer_pairs SessionChat
           (History.render SessionChat (Some (lit "chat_a")) History.init)
           0%nat (History.mkLoad (Some (lit "chat_a")) true true)
           [History.mkInteraction (lit "q") (lit "a") (lit "t")]);
    [reflexivity | reflexivity | reflexivity | discriminate].
Defined.
